(** * invenio-groups: the data models of [invenio_groups/models.py]

    A shallow embedding of the group, membership and group-administrator
    models together with the part of the SQLAlchemy session they rely on.

    - Rows are records whose fields are the mapped columns.  The
      [created] and [modified] columns are filled from [datetime.now] and
      are read by no operation of the module; they are left out.
    - The session is a pair of table snapshots: [stored] is what has been
      committed, [work] is what the current transaction sees.  [commit]
      publishes [work], or restores it from [stored] when the flush
      fails; [rollback] restores it from [stored].
    - Every statement sent to the store (executing a query, a bulk
      delete, the flush of a commit) may fail for reasons outside the
      program, and so may the receivers of a signal.  Such failures are
      an oracle carried by the session: a list of optional exceptions,
      one consumed per statement or signal.
    - Python exceptions are a result type, and [try]/[except] is a
      combinator that names the exception classes the clause catches. *)

From Stdlib Require Import List String Ascii Bool Arith PeanoNat Lia.
Import ListNotations.
Local Open Scope string_scope.
Local Open Scope list_scope.


(* ------------------------------------------------------------------ *)
(** ** Policy and state codes *)

Module SubscriptionPolicy.
Definition OPEN := "O".
Definition APPROVAL := "A".
Definition CLOSED := "C".

Definition validate (policy : string) : bool :=
  existsb (String.eqb policy) [OPEN; APPROVAL; CLOSED].
End SubscriptionPolicy.

Module PrivacyPolicy.
Definition PUBLIC := "P".
Definition MEMBERS := "M".
Definition ADMINS := "A".

Definition validate (policy : string) : bool :=
  existsb (String.eqb policy) [PUBLIC; MEMBERS; ADMINS].
End PrivacyPolicy.

Module MembershipState.
Definition PENDING_ADMIN := "A".
Definition PENDING_USER := "U".
Definition ACTIVE := "M".

Definition validate (state : string) : bool :=
  existsb (String.eqb state) [ACTIVE; PENDING_ADMIN; PENDING_USER].
End MembershipState.

(* ------------------------------------------------------------------ *)
(** ** Rows *)

(** The accounts module's [User] model, as far as this module reads it. *)
Record User := mkUser {
  user_id : nat;
  email : string;
  nickname : string
}.

Record Group := mkGroup {
  id : nat;
  name : string;
  description : string;
  is_managed : bool;
  privacy_policy : string;
  subscription_policy : string
}.

Record Membership := mkMembership {
  id_user : nat;
  id_group : nat;
  state : string
}.

Record GroupAdmin := mkGroupAdmin {
  ga_id : nat;
  group_id : nat;
  admin_type : string;
  admin_id : nat
}.

(** Attribute assignment on a [Group] object. *)
Definition set_name (g : Group) (v : string) : Group :=
  mkGroup (id g) v (description g) (is_managed g) (privacy_policy g)
          (subscription_policy g).
Definition set_description (g : Group) (v : string) : Group :=
  mkGroup (id g) (name g) v (is_managed g) (privacy_policy g)
          (subscription_policy g).
Definition set_is_managed (g : Group) (v : bool) : Group :=
  mkGroup (id g) (name g) (description g) v (privacy_policy g)
          (subscription_policy g).
Definition set_privacy_policy (g : Group) (v : string) : Group :=
  mkGroup (id g) (name g) (description g) (is_managed g) v
          (subscription_policy g).
Definition set_subscription_policy (g : Group) (v : string) : Group :=
  mkGroup (id g) (name g) (description g) (is_managed g) (privacy_policy g) v.

(** The objects handed in as [user] or [admin]: the login proxy
    [current_user], a legacy [UserInfo], a [User] row or a [Group] row. *)
Inductive principal :=
| current_user (uid : nat)
| UserInfo (uid : nat)
| UserObj (u : User)
| GroupObj (g : Group).

Definition get_id (p : principal) : nat :=
  match p with
  | current_user uid => uid
  | UserInfo uid => uid
  | UserObj u => user_id u
  | GroupObj g => id g
  end.

(** [admin.__class__.__name__] *)
Definition class_name (p : principal) : string :=
  match p with
  | current_user _ => "LocalProxy"
  | UserInfo _ => "UserInfo"
  | UserObj _ => "User"
  | GroupObj _ => "Group"
  end.

Definition resolve_admin_type (admin : principal) : string :=
  match admin with
  | current_user _ | UserInfo _ => "User"
  | _ => class_name admin
  end.

(* ------------------------------------------------------------------ *)
(** ** Tables and their constraints *)

Record tables := mkTables {
  t_user : list User;
  t_group : list Group;
  t_member : list Membership;
  t_admin : list GroupAdmin
}.

Definition with_groups (t : tables) (gs : list Group) : tables :=
  mkTables (t_user t) gs (t_member t) (t_admin t).
Definition with_members (t : tables) (ms : list Membership) : tables :=
  mkTables (t_user t) (t_group t) ms (t_admin t).
Definition with_admins (t : tables) (ads : list GroupAdmin) : tables :=
  mkTables (t_user t) (t_group t) (t_member t) ads.

Fixpoint distinct {K : Type} (eqb : K -> K -> bool) (ks : list K) : bool :=
  match ks with
  | [] => true
  | k :: rest => negb (existsb (eqb k) rest) && distinct eqb rest
  end.

Definition pair_eqb (a b : nat * nat) : bool :=
  Nat.eqb (fst a) (fst b) && Nat.eqb (snd a) (snd b).

Definition triple_eqb (a b : nat * string * nat) : bool :=
  match a, b with
  | (g1, ty1, i1), (g2, ty2, i2) =>
      Nat.eqb g1 g2 && String.eqb ty1 ty2 && Nat.eqb i1 i2
  end.

Definition member_key (m : Membership) : nat * nat := (id_user m, id_group m).
Definition admin_key (a : GroupAdmin) : nat * string * nat :=
  (group_id a, admin_type a, admin_id a).

Definition has_user (t : tables) (uid : nat) : bool :=
  existsb (fun u => Nat.eqb (user_id u) uid) (t_user t).
Definition has_group (t : tables) (gid : nat) : bool :=
  existsb (fun g => Nat.eqb (id g) gid) (t_group t).

(** What the schema declares: primary keys, the unique group name, the
    unique [(group_id, admin_type, admin_id)] triple and the foreign keys
    of [groupMEMBER] and [groupADMIN]. *)
Definition consistent (t : tables) : bool :=
  distinct Nat.eqb (map id (t_group t))
  && distinct String.eqb (map name (t_group t))
  && distinct pair_eqb (map member_key (t_member t))
  && forallb (fun m => has_user t (id_user m) && has_group t (id_group m))
             (t_member t)
  && distinct Nat.eqb (map ga_id (t_admin t))
  && distinct triple_eqb (map admin_key (t_admin t))
  && forallb (fun a => has_group t (group_id a)) (t_admin t).

(** Autoincrement: the next identifier is above every one in use. *)
Definition next_id (ids : list nat) : nat := S (list_max ids).

(* ------------------------------------------------------------------ *)
(** ** Exceptions, the session and the monad of model methods *)

Inductive exn :=
| AssertionError
| IntegrityError
| NoResultFound
| MultipleResultsFound
| InvalidRequestError
| OperationalError.

Definition is_IntegrityError (e : exn) : bool :=
  match e with IntegrityError => true | _ => false end.
Definition is_NoResultFound (e : exn) : bool :=
  match e with NoResultFound => true | _ => false end.
(** [except Exception] *)
Definition is_Exception (e : exn) : bool := true.

Inductive signal :=
| group_created (g : Group)
| group_deleted (g : Group).

Record session := mkSession {
  stored : tables;
  work : tables;
  faults : list (option exn);
  signals : list signal
}.

Inductive result (A : Type) :=
| Return (a : A)
| Raise (e : exn).
Arguments Return {A} a.
Arguments Raise {A} e.

Definition M (A : Type) : Type := session -> result A * session.

Definition ret {A} (a : A) : M A := fun s => (Return a, s).
Definition raise {A} (e : exn) : M A := fun s => (Raise e, s).
Definition bind {A B} (m : M A) (k : A -> M B) : M B :=
  fun s =>
    match m s with
    | (Return a, s') => k a s'
    | (Raise e, s') => (Raise e, s')
    end.

Notation "x <- m ;; k" := (bind m (fun x => k))
  (at level 61, m at next level, right associativity).
Notation "m ;;; k" := (bind m (fun _ => k))
  (at level 61, right associativity).

(** [try: body except <classes>: handler] *)
Definition try_except {A} (body : M A) (classes : exn -> bool)
    (handler : exn -> M A) : M A :=
  fun s =>
    match body s with
    | (Raise e, s') => if classes e then handler e s' else (Raise e, s')
    | r => r
    end.

(** [assert cond] *)
Definition assert (cond : bool) : M unit :=
  if cond then ret tt else raise AssertionError.

(** A [for] loop whose body may [return]: the body yields [Some v] for
    [return v] and [None] when it falls through to the next element. *)
Fixpoint for_in {A R} (xs : list A) (body : A -> M (option R))
    : M (option R) :=
  match xs with
  | [] => ret None
  | x :: rest =>
      r <- body x ;;
      match r with
      | Some v => ret (Some v)
      | None => for_in rest body
      end
  end.

(** One statement sent to the store. *)
Definition statement : M unit :=
  fun s =>
    match faults s with
    | [] => (Return tt, s)
    | None :: fs => (Return tt, mkSession (stored s) (work s) fs (signals s))
    | Some e :: fs => (Raise e, mkSession (stored s) (work s) fs (signals s))
    end.

Definition get_work : M tables := fun s => (Return (work s), s).
Definition put_work (t : tables) : M unit :=
  fun s => (Return tt, mkSession (stored s) t (faults s) (signals s)).

(** [db.session.rollback()] *)
Definition rollback : M unit :=
  fun s => (Return tt, mkSession (stored s) (stored s) (faults s) (signals s)).

(** [db.session.commit()]: the flush is refused with [IntegrityError] when
    the pending rows break a constraint of the schema.  A flush that
    fails, for this or any other reason, makes the session roll its
    transaction back before the error leaves [commit]: nothing stays
    pending. *)
Definition commit : M unit :=
  try_except
    (statement ;;;
     t <- get_work ;;
     if consistent t
     then fun s =>
            (Return tt, mkSession (work s) (work s) (faults s) (signals s))
     else raise IntegrityError)
    is_Exception
    (fun e => rollback ;;; raise e).

(** [signal.send(...)]: the receivers run at once, and an exception of a
    receiver leaves [send]; it is taken from the oracle like a failure of
    the store. *)
Definition send (sg : signal) : M unit :=
  fun s =>
    let s' := mkSession (stored s) (work s) (tl (faults s))
                        (signals s ++ [sg]) in
    match faults s with
    | Some e :: _ => (Raise e, s')
    | _ => (Return tt, s')
    end.

(** A query is a selection over the tables the transaction sees; it is
    sent to the store only when executed. *)
Definition Query (A : Type) : Type := tables -> list A.

Definition one {A} (q : Query A) : M A :=
  statement ;;;
  t <- get_work ;;
  match q t with
  | [] => raise NoResultFound
  | [x] => ret x
  | _ => raise MultipleResultsFound
  end.

Definition count {A} (q : Query A) : M nat :=
  statement ;;;
  t <- get_work ;;
  ret (List.length (q t)).

(** SQL [UNION]: the rows of both selections, each once. *)
Fixpoint dedup {A} (eqb : A -> A -> bool) (l : list A) : list A :=
  match l with
  | [] => []
  | x :: rest =>
      if existsb (eqb x) rest then dedup eqb rest else x :: dedup eqb rest
  end.

Definition union {A} (eqb : A -> A -> bool) (q1 q2 : Query A) : Query A :=
  fun t => dedup eqb (q1 t ++ q2 t).

(** A loop without [return]. *)
Fixpoint for_each {A} (xs : list A) (body : A -> M unit) : M unit :=
  match xs with
  | [] => ret tt
  | x :: rest => body x ;;; for_each rest body
  end.

(* ------------------------------------------------------------------ *)
(** ** Session operations on rows *)

Definition membership_eqb (a b : Membership) : bool :=
  Nat.eqb (id_user a) (id_user b)
  && Nat.eqb (id_group a) (id_group b)
  && String.eqb (state a) (state b).

Definition group_admin_eqb (a b : GroupAdmin) : bool :=
  Nat.eqb (ga_id a) (ga_id b)
  && Nat.eqb (group_id a) (group_id b)
  && String.eqb (admin_type a) (admin_type b)
  && Nat.eqb (admin_id a) (admin_id b).

Definition group_eqb (a b : Group) : bool :=
  Nat.eqb (id a) (id b)
  && String.eqb (name a) (name b)
  && String.eqb (description a) (description b)
  && Bool.eqb (is_managed a) (is_managed b)
  && String.eqb (privacy_policy a) (privacy_policy b)
  && String.eqb (subscription_policy a) (subscription_policy b).

(** [db.session.add(obj)] for each mapped class.  A new [Group] or
    [GroupAdmin] receives its autoincremented identifier. *)
Definition add_group (mk : nat -> Group) : M Group :=
  t <- get_work ;;
  let obj := mk (next_id (map id (t_group t))) in
  put_work (with_groups t (t_group t ++ [obj])) ;;;
  ret obj.

Definition add_membership (m : Membership) : M unit :=
  t <- get_work ;;
  put_work (with_members t (t_member t ++ [m])).

Definition add_group_admin (mk : nat -> GroupAdmin) : M unit :=
  t <- get_work ;;
  put_work (with_admins t
    (t_admin t ++ [mk (next_id (map ga_id (t_admin t)))])).

(** Assigning attributes of a persistent object: the row with the
    object's primary key takes the object's values. *)
Definition replace_group (g r : Group) : Group :=
  if Nat.eqb (id r) (id g) then g else r.

Definition set_group (g : Group) : M unit :=
  t <- get_work ;;
  put_work (with_groups t (map (replace_group g) (t_group t))).

Definition replace_membership (m r : Membership) : Membership :=
  if pair_eqb (member_key r) (member_key m) then m else r.

Definition set_membership (m : Membership) : M unit :=
  t <- get_work ;;
  put_work (with_members t (map (replace_membership m) (t_member t))).

(** [query.delete()]: one DELETE statement for the selected rows. *)
Definition delete_memberships (q : Query Membership) : M unit :=
  statement ;;;
  t <- get_work ;;
  put_work (with_members t
    (filter (fun r => negb (existsb (membership_eqb r) (q t))) (t_member t))).

Definition delete_group_admins (q : Query GroupAdmin) : M unit :=
  statement ;;;
  t <- get_work ;;
  put_work (with_admins t
    (filter (fun r => negb (existsb (group_admin_eqb r) (q t))) (t_admin t))).

(** [db.session.delete(membership)]; an object that is not persistent is
    refused. *)
Definition delete_membership (m : Membership) : M unit :=
  t <- get_work ;;
  if existsb (fun r => pair_eqb (member_key r) (member_key m)) (t_member t)
  then put_work (with_members t
         (filter (fun r => negb (pair_eqb (member_key r) (member_key m)))
                 (t_member t)))
  else raise InvalidRequestError.

(** [db.session.delete(group)].  The [members] and [admins] backrefs are
    declared with [cascade="all, delete-orphan"]: the rows of both
    collections go with the group. *)
Definition delete_group (g : Group) : M unit :=
  t <- get_work ;;
  if has_group t (id g)
  then put_work
         (mkTables (t_user t)
            (filter (fun r => negb (Nat.eqb (id r) (id g))) (t_group t))
            (filter (fun r => negb (Nat.eqb (id_group r) (id g))) (t_member t))
            (filter (fun r => negb (Nat.eqb (group_id r) (id g))) (t_admin t)))
  else raise InvalidRequestError.

(* ------------------------------------------------------------------ *)
(** ** The models *)

Module User.
(** [User.query.filter_by(email=email)] *)
Definition query_by_email (e : string) : Query User :=
  fun t => filter (fun u => String.eqb (email u) e) (t_user t).
End User.

Module GroupAdmin.

(** [cls.query.filter_by(group=group, admin_id=..., admin_type=...).one()]
    under [except Exception: return None]. *)
Definition get (group : Group) (admin : principal) : M (option GroupAdmin) :=
  try_except
    (ga <- one (fun t =>
              filter (fun r => Nat.eqb (group_id r) (id group)
                               && Nat.eqb (admin_id r) (get_id admin)
                               && String.eqb (admin_type r)
                                             (resolve_admin_type admin))
                     (t_admin t)) ;;
     ret (Some ga))
    is_Exception
    (fun _ => ret None).

Definition query_by_group (group : Group) : Query GroupAdmin :=
  fun t => filter (fun r => Nat.eqb (group_id r) (id group)) (t_admin t).

Definition query_by_admin (admin : principal) : Query GroupAdmin :=
  fun t =>
    filter (fun r => String.eqb (admin_type r) (resolve_admin_type admin)
                     && Nat.eqb (admin_id r) (get_id admin))
           (t_admin t).

(** [Group JOIN GroupAdmin]: a group row once per admin row of the group. *)
Definition joined_with_group (t : tables) : list (Group * GroupAdmin) :=
  flat_map (fun g => map (fun a => (g, a))
                         (filter (fun a => Nat.eqb (group_id a) (id g))
                                 (t_admin t)))
           (t_group t).

(** [query(Group.id, func.count(GroupAdmin.id)).join(GroupAdmin)
    .group_by(Group.id)], restricted to [groups_ids] when that list is
    given and not empty ([if groups_ids:]). *)
Definition query_admins_by_group_ids (groups_ids : option (list nat))
    : Query (nat * nat) :=
  fun t =>
    let selected :=
      match groups_ids with
      | Some (i :: ids) =>
          filter (fun r => existsb (Nat.eqb (id (fst r))) (i :: ids))
                 (joined_with_group t)
      | _ => joined_with_group t
      end in
    map (fun gid =>
           (gid, List.length
                   (filter (fun r => Nat.eqb (id (fst r)) gid) selected)))
        (dedup Nat.eqb (map (fun r => id (fst r)) selected)).

End GroupAdmin.

Module Membership.

Definition get (group : Group) (user : principal) : M (option Membership) :=
  try_except
    (m <- one (fun t =>
             filter (fun r => Nat.eqb (id_user r) (get_id user)
                              && Nat.eqb (id_group r) (id group))
                    (t_member t)) ;;
     ret (Some m))
    is_Exception
    (fun _ => ret None).

(** [_filter(query, state=MembershipState.ACTIVE, eager=None)]: the
    keyword [state] is optional and defaults to ACTIVE.  The [eager]
    options only change how related rows are loaded. *)
Definition _filter (query : Query Membership) (state_kw : option string)
    : Query Membership :=
  let st := match state_kw with
            | Some st => st
            | None => MembershipState.ACTIVE
            end in
  fun t => filter (fun r => String.eqb (state r) st) (query t).

Definition query_by_user (user : principal) (state_kw : option string)
    : Query Membership :=
  _filter (fun t => filter (fun r => Nat.eqb (id_user r) (get_id user))
                           (t_member t))
          state_kw.

Definition query_invitations (user : principal) : Query Membership :=
  query_by_user user (Some MembershipState.PENDING_USER).

Definition query_requests (admin : principal) : Query Membership :=
  let q1 : Query nat := fun t =>
    map group_id (GroupAdmin.query_by_admin admin t) in
  let q2 : Query Membership := fun t =>
    filter (fun r => String.eqb (state r) MembershipState.PENDING_ADMIN
                     && existsb (Nat.eqb (id_group r)) (q1 t))
           (t_member t) in
  let q3 : Query nat := fun t =>
    map id_group (query_by_user admin (Some MembershipState.ACTIVE) t) in
  let q4 : Query nat := fun t =>
    map group_id
        (filter (fun a => String.eqb (admin_type a) "Group"
                          && existsb (Nat.eqb (admin_id a)) (q3 t))
                (t_admin t)) in
  let q5 : Query Membership := fun t =>
    filter (fun r => String.eqb (state r) MembershipState.PENDING_ADMIN
                     && existsb (Nat.eqb (id_group r)) (q4 t))
           (t_member t) in
  union membership_eqb q2 q5.

(** [query_by_group(group_or_id, with_invitations=False, **kwargs)]; a
    [Group] object stands for its [id]. *)
Definition query_by_group (group_or_id : Group + nat)
    (with_invitations : bool) (state_kw : option string)
    : Query Membership :=
  let id_group' := match group_or_id with
                   | inl g => id g
                   | inr i => i
                   end in
  if negb with_invitations
  then _filter (fun t => filter (fun r => Nat.eqb (id_group r) id_group')
                                (t_member t))
               state_kw
  else fun t =>
    filter (fun r => Nat.eqb (id_group r) id_group'
                     && (String.eqb (state r) MembershipState.PENDING_USER
                         || String.eqb (state r) MembershipState.ACTIVE))
           (t_member t).

Definition create (group : Group) (user : principal) (st : string)
    : M Membership :=
  try_except
    (let membership := mkMembership (get_id user) (id group) st in
     add_membership membership ;;;
     commit ;;;
     ret membership)
    is_IntegrityError
    (fun e => rollback ;;; raise e).

Definition delete (group : Group) (user : principal) : M unit :=
  try_except
    (delete_memberships
       (fun t => filter (fun r => Nat.eqb (id_group r) (id group)
                                  && Nat.eqb (id_user r) (get_id user))
                        (t_member t)) ;;;
     commit)
    is_Exception
    (fun e => rollback ;;; raise e).

(** [accept] assigns to [self] in place and returns nothing; the model
    returns the object as the method leaves it. *)
Definition accept (self : Membership) : M Membership :=
  let self' := mkMembership (id_user self) (id_group self)
                            MembershipState.ACTIVE in
  set_membership self' ;;;
  commit ;;;
  ret self'.

Definition reject (self : Membership) : M unit :=
  try_except
    (delete_membership self ;;;
     commit)
    is_Exception
    (fun e => rollback ;;; raise e).

Definition is_active (self : Membership) : bool :=
  String.eqb (state self) MembershipState.ACTIVE.

End Membership.

Module Group.

(** Python truth value of the [name] argument. *)
Definition truthy (name : option string) : bool :=
  match name with
  | Some n => negb (String.eqb n "")
  | None => false
  end.

Definition valid_or_none (validate : string -> bool) (p : option string)
    : bool :=
  match p with
  | None => true
  | Some c => validate c
  end.

Definition or_default {A} (o : option A) (d : A) : A :=
  match o with
  | Some a => a
  | None => d
  end.

(** Columns left [None] take their declared default at the flush:
    ADMINS for [privacy_policy], CLOSED for [subscription_policy]. *)
Definition create (name : option string) (description : string)
    (privacy_policy subscription_policy : option string)
    (is_managed : bool) (admins : option (list principal)) : M Group :=
  assert (truthy name) ;;;
  assert (valid_or_none PrivacyPolicy.validate privacy_policy) ;;;
  assert (valid_or_none SubscriptionPolicy.validate subscription_policy) ;;;
  try_except
    (obj <- add_group (fun i =>
              mkGroup i (or_default name "") description is_managed
                      (or_default privacy_policy PrivacyPolicy.ADMINS)
                      (or_default subscription_policy
                                  SubscriptionPolicy.CLOSED)) ;;
     for_each (or_default admins [])
       (fun a => add_group_admin (fun i =>
                   mkGroupAdmin i (id obj) (resolve_admin_type a)
                                (get_id a))) ;;;
     commit ;;;
     send (group_created obj) ;;;
     ret obj)
    is_IntegrityError
    (fun e => rollback ;;; raise e).

Definition delete (self : Group) : M unit :=
  try_except
    (delete_memberships (Membership.query_by_group (inl self) false None) ;;;
     delete_group_admins (GroupAdmin.query_by_group self) ;;;
     delete_group_admins (GroupAdmin.query_by_admin (GroupObj self)) ;;;
     delete_group self ;;;
     commit ;;;
     send (group_deleted self))
    is_Exception
    (fun e => rollback ;;; raise e).

(** Only the arguments that are not [None] are assigned; a policy code
    that does not validate is skipped. *)
Definition update (self : Group) (name description : option string)
    (privacy_policy subscription_policy : option string)
    (is_managed : option bool) : M Group :=
  let self1 :=
    match name with
    | Some n => set_name self n
    | None => self
    end in
  let self2 :=
    match description with
    | Some d => set_description self1 d
    | None => self1
    end in
  let self3 :=
    match privacy_policy with
    | Some p =>
        if PrivacyPolicy.validate p then set_privacy_policy self2 p
        else self2
    | None => self2
    end in
  let self4 :=
    match subscription_policy with
    | Some p =>
        if SubscriptionPolicy.validate p
        then set_subscription_policy self3 p
        else self3
    | None => self3
    end in
  let self5 :=
    match is_managed with
    | Some b => set_is_managed self4 b
    | None => self4
    end in
  set_group self5 ;;;
  commit ;;;
  ret self5.

(** [cls.query.filter_by(name=name)] *)
Definition filter_by_name (n : string) : Query Group :=
  fun t => filter (fun r => String.eqb (name r) n) (t_group t).

Definition get_by_name (name : string) : M (option Group) :=
  try_except
    (g <- one (filter_by_name name) ;;
     ret (Some g))
    is_NoResultFound
    (fun _ => ret None).

Definition add_member (self : Group) (user : principal) (st : string)
    : M Membership :=
  Membership.create self user st.

Definition remove_member (self : Group) (user : principal) : M unit :=
  Membership.delete self user.

Definition is_admin (self : Group) (admin : principal) : M bool :=
  ga <- GroupAdmin.get self admin ;;
  match ga with
  | Some _ => ret true
  | None => ret false
  end.

Definition is_member (self : Group) (user : principal)
    (with_pending : bool) : M bool :=
  m <- Membership.get self user ;;
  match m with
  | Some m =>
      if with_pending then ret true
      else if String.eqb (state m) MembershipState.ACTIVE then ret true
      else ret false
  | None => ret false
  end.

Definition invite (self : Group) (user : principal)
    (admin : option principal) : M (option Membership) :=
  ok <- match admin with
        | None => ret true
        | Some a => is_admin self a
        end ;;
  if ok
  then m <- add_member self user MembershipState.PENDING_USER ;;
       ret (Some m)
  else ret None.

(** The loop body returns on both paths of the [try]; when the loop
    runs out the method returns [None]. *)
Definition invite_by_emails (self : Group) (emails : list string)
    : M (option Membership) :=
  r <- for_in emails
         (fun email =>
            try_except
              (user <- one (User.query_by_email email) ;;
               m <- invite self (UserObj user) None ;;
               ret (Some m))
              is_Exception
              (fun _ => ret (Some None))) ;;
  match r with
  | Some v => ret v
  | None => ret None
  end.

Definition subscribe (self : Group) (user : principal)
    : M (option Membership) :=
  if String.eqb (subscription_policy self) SubscriptionPolicy.OPEN
  then m <- add_member self user MembershipState.ACTIVE ;;
       ret (Some m)
  else if String.eqb (subscription_policy self) SubscriptionPolicy.APPROVAL
  then m <- add_member self user MembershipState.PENDING_ADMIN ;;
       ret (Some m)
  else if String.eqb (subscription_policy self) SubscriptionPolicy.CLOSED
  then ret None
  else ret None.

Definition can_see_members (self : Group) (user : principal)
    : M (option bool) :=
  if String.eqb (privacy_policy self) PrivacyPolicy.PUBLIC
  then ret (Some true)
  else if String.eqb (privacy_policy self) PrivacyPolicy.MEMBERS
  then b <- is_member self user false ;; ret (Some b)
  else if String.eqb (privacy_policy self) PrivacyPolicy.ADMINS
  then b <- is_admin self user ;; ret (Some b)
  else ret None.

Definition members_count (self : Group) : M nat :=
  count (Membership.query_by_group (inl self) false None).

(** [cls.query.filter(cls.name.in_(names))] *)
Definition query_by_names (names : list string) : Query Group :=
  fun t => filter (fun g => existsb (String.eqb (name g)) names) (t_group t).

(** [query_by_user(user, with_pending=False, eager=False)].  After a
    [join] the [filter_by] keywords are columns of the joined class.
    [eager] only adds [joinedload] options. *)
Definition query_by_user (user : principal) (with_pending : bool)
    : Query Group :=
  let q1 : Query Group := fun t =>
    flat_map
      (fun g =>
         map (fun _ => g)
             (filter (fun m => Nat.eqb (id_group m) (id g)
                               && Nat.eqb (id_user m) (get_id user)
                               && (with_pending
                                   || String.eqb (state m)
                                                 MembershipState.ACTIVE))
                     (t_member t)))
      (t_group t) in
  let q2 : Query Group := fun t =>
    flat_map
      (fun g =>
         map (fun _ => g)
             (filter (fun a => Nat.eqb (group_id a) (id g)
                               && Nat.eqb (admin_id a) (get_id user)
                               && String.eqb (admin_type a)
                                             (resolve_admin_type user))
                     (t_admin t)))
      (t_group t) in
  let query : Query nat := fun t => map id (union group_eqb q1 q2 t) in
  fun t => filter (fun g => existsb (Nat.eqb (id g)) (query t)) (t_group t).

End Group.

(* ------------------------------------------------------------------ *)
(** ** Vocabulary of the statements *)

(** The session holds no uncommitted change. *)
Definition clean (s : session) : Prop := work s = stored s.

(** The next statement sent to the store fails. *)
Definition fails (s : session) : bool :=
  match faults s with
  | Some _ :: _ => true
  | _ => false
  end.

(** The session after one statement has been sent. *)
Definition after_statement (s : session) : session :=
  mkSession (stored s) (work s) (tl (faults s)) (signals s).

Definition sole {A} (l : list A) : option A :=
  match l with
  | [x] => Some x
  | _ => None
  end.

(** Rows of [groupMEMBER] that belong to a group. *)
Definition rows_of_group (t : tables) (gid : nat) : list Membership :=
  filter (fun m => Nat.eqb (id_group m) gid) (t_member t).

Definition active_rows_of_group (t : tables) (gid : nat) : list Membership :=
  filter (fun m => Nat.eqb (id_group m) gid
                   && String.eqb (state m) MembershipState.ACTIVE)
         (t_member t).

(** A [groupADMIN] row makes the object [(ty, aid)] an admin of [gid]. *)
Definition administers (t : tables) (ty : string) (aid gid : nat) : Prop :=
  exists ga, In ga (t_admin t)
             /\ admin_type ga = ty /\ admin_id ga = aid /\ group_id ga = gid.

Definition active_member (t : tables) (uid gid : nat) : Prop :=
  exists m, In m (t_member t)
            /\ id_user m = uid /\ id_group m = gid
            /\ state m = MembershipState.ACTIVE.

Definition has_membership (t : tables) (uid gid : nat) : bool :=
  existsb (fun r => pair_eqb (member_key r) (uid, gid)) (t_member t).

(** The tables with one more membership row. *)
Definition inserted (t : tables) (m : Membership) : tables :=
  with_members t (t_member t ++ [m]).

(** The [admin] argument of [invite] lets the invitation through: it is
    omitted, or [is_admin] answers [True] for it. *)
Definition allows_invite (self : Group) (admin : option principal) (s : session)
    : Prop :=
  match admin with
  | None => True
  | Some X => fst (Group.is_admin self X s) = Return true
  end.

(** The membership as [accept] leaves it. *)
Definition activated (self : Membership) : Membership :=
  mkMembership (id_user self) (id_group self) MembershipState.ACTIVE.

(** The tables once a group, its memberships and the [groupADMIN] rows
    that name it on either side are gone. *)
Definition without_group (t : tables) (gid : nat) : tables :=
  mkTables (t_user t)
    (filter (fun g => negb (Nat.eqb (id g) gid)) (t_group t))
    (filter (fun m => negb (Nat.eqb (id_group m) gid)) (t_member t))
    (filter (fun a => negb (Nat.eqb (group_id a) gid)
                      && negb (String.eqb (admin_type a) "Group"
                               && Nat.eqb (admin_id a) gid))
            (t_admin t)).

(** Some group bears the name. *)
Definition has_name (t : tables) (n : string) : bool :=
  existsb (fun g => String.eqb (name g) n) (t_group t).

(** The row [Group.create] flushes when only [name] is given. *)
Definition new_group (t : tables) (n : string) : Group :=
  mkGroup (next_id (map id (t_group t))) n "" false
          PrivacyPolicy.ADMINS SubscriptionPolicy.CLOSED.



(** The errors the models and the session raise by themselves, as
    opposed to the failures the store or a receiver reports. *)
Definition own_error (e : exn) : bool :=
  match e with
  | AssertionError | IntegrityError | InvalidRequestError => true
  | _ => false
  end.

(** Between [s] and [s'] every statement and signal went through. *)
Definition quiet_run (s s' : session) : Prop :=
  exists k, faults s = repeat None k ++ faults s'.

(** Between [s] and [s'] the last statement or signal failed with [e],
    and those before it went through. *)
Definition failed_with (e : exn) (s s' : session) : Prop :=
  exists k, faults s = repeat None k ++ Some e :: faults s'.

(** Where a raised error comes from: it is the failure reported by the
    store or a receiver, or an error of the program's own raised while
    nothing had failed. *)
Definition cause (e : exn) (s s' : session) : Prop :=
  failed_with e s s' \/ (own_error e = true /\ quiet_run s s').




(** [m] commits nothing and sends nothing. *)
Definition pending_only {A} (m : M A) : Prop :=
  forall s,
    stored (snd (m s)) = stored s
    /\ signals (snd (m s)) = signals s
    /\ match fst (m s) with
       | Return _ => quiet_run s (snd (m s))
       | Raise e => cause e s (snd (m s))
       end.

(** The user has an ACTIVE row in the group. *)
Definition has_active_membership (t : tables) (uid gid : nat) : bool :=
  existsb (fun r => Nat.eqb (id_user r) uid && Nat.eqb (id_group r) gid
                    && String.eqb (state r) MembershipState.ACTIVE)
          (t_member t).

(** Every membership row carries one of the three state codes.  A row
    with any other code cannot be loaded from the store. *)
Definition valid_states (t : tables) : bool :=
  forallb (fun r => MembershipState.validate (state r)) (t_member t).

(** Boolean form of [administers]. *)
Definition registered (t : tables) (ty : string) (aid gid : nat) : bool :=
  existsb (fun a => Nat.eqb (group_id a) gid && Nat.eqb (admin_id a) aid
                    && String.eqb (admin_type a) ty)
          (t_admin t).

(** The tables without the membership row of a pair. *)
Definition removed (t : tables) (uid gid : nat) : tables :=
  with_members t
    (filter (fun r => negb (Nat.eqb (id_group r) gid
                            && Nat.eqb (id_user r) uid))
            (t_member t)).

(** Number of [groupADMIN] rows of a group. *)
Definition admin_count (t : tables) (gid : nat) : nat :=
  List.length (filter (fun a => Nat.eqb (group_id a) gid) (t_admin t)).

(** The three objects that stand for one user. *)
Definition stands_for (u : User) (p : principal) : Prop :=
  p = current_user (user_id u) \/ p = UserInfo (user_id u) \/ p = UserObj u.

(** The object [update] leaves: an argument that is [None], or a policy
    code that does not validate, keeps the attribute. *)
Definition updated (self : Group) (n d pp sp : option string)
    (im : option bool) : Group :=
  mkGroup (id self)
    (match n with Some v => v | None => name self end)
    (match d with Some v => v | None => description self end)
    (match im with Some v => v | None => is_managed self end)
    (match pp with
     | Some v => if PrivacyPolicy.validate v then v else privacy_policy self
     | None => privacy_policy self
     end)
    (match sp with
     | Some v => if SubscriptionPolicy.validate v then v
                 else subscription_policy self
     | None => subscription_policy self
     end).

(** A call that sends [sg] only once its commit is through: either it
    raises and no signal has been sent, or [sg] has been sent, nothing is
    pending, the committed tables satisfy [Q] and the value returned, if
    any, satisfies [ok]. *)
Definition sends_after_commit {A} (sg : signal) (Q : tables -> Prop)
    (ok : A -> Prop) (s : session) (out : result A * session) : Prop :=
  (signals (snd out) = signals s /\ exists e, fst out = Raise e)
  \/ (signals (snd out) = signals s ++ [sg]
      /\ stored (snd out) = work (snd out)
      /\ Q (stored (snd out))
      /\ match fst out with
         | Return a => ok a
         | Raise _ => True
         end).

(* ------------------------------------------------------------------ *)
(** ** A small installation used for the concrete runs *)

Module Ex.
Definition alice := mkUser 1 "alice@example.org" "alice".
Definition bob := mkUser 2 "bob@example.org" "bob".

Definition readers :=
  mkGroup 1 "readers" "" false PrivacyPolicy.ADMINS SubscriptionPolicy.OPEN.
Definition editors :=
  mkGroup 2 "editors" "" false PrivacyPolicy.ADMINS
          SubscriptionPolicy.APPROVAL.
Definition board :=
  mkGroup 3 "board" "" false PrivacyPolicy.ADMINS SubscriptionPolicy.CLOSED.

(** Three groups, two users, nobody a member or an admin yet. *)
Definition empty_groups : tables :=
  mkTables [alice; bob] [readers; editors; board] [] [].

(** [bob] has asked to join [readers]; [editors] administers [readers]
    and [alice] is an active member of [editors]. *)
Definition delegated : tables :=
  mkTables [alice; bob] [readers; editors; board]
    [mkMembership 1 2 MembershipState.ACTIVE;
     mkMembership 2 1 MembershipState.PENDING_ADMIN]
    [mkGroupAdmin 1 1 "Group" 2].

(** [alice] is registered as an admin of [board]. *)
Definition administered : tables :=
  mkTables [alice; bob] [readers; editors; board] []
    [mkGroupAdmin 1 3 "User" 1].

Definition idle (t : tables) : session := mkSession t t [] [].
End Ex.

(* ------------------------------------------------------------------ *)
(** ** Equality tests *)

Lemma pair_eqb_eq (a b : nat * nat) : pair_eqb a b = true <-> a = b.
Proof.
  destruct a as [a1 a2], b as [b1 b2]; unfold pair_eqb; simpl.
  rewrite andb_true_iff, !Nat.eqb_eq.
  split; [intros [-> ->]; reflexivity | intros H; inversion H; auto].
Qed.

Lemma membership_eqb_eq (a b : Membership) :
  membership_eqb a b = true <-> a = b.
Proof.
  destruct a as [u1 g1 s1], b as [u2 g2 s2]; unfold membership_eqb; simpl.
  rewrite !andb_true_iff, !Nat.eqb_eq, String.eqb_eq.
  split; [intros [[-> ->] ->]; reflexivity | intros H; inversion H; auto].
Qed.

Lemma group_admin_eqb_eq (a b : GroupAdmin) :
  group_admin_eqb a b = true <-> a = b.
Proof.
  destruct a as [i1 g1 t1 a1], b as [i2 g2 t2 a2].
  unfold group_admin_eqb; simpl.
  rewrite !andb_true_iff, !Nat.eqb_eq, String.eqb_eq.
  split; [intros [[[-> ->] ->] ->]; reflexivity
         | intros H; inversion H; auto].
Qed.

Section Lists.
Variable A : Type.
Variable eqb : A -> A -> bool.
Hypothesis eqb_eq : forall a b, eqb a b = true <-> a = b.

Lemma existsb_eqb_In (x : A) (l : list A) :
  existsb (eqb x) l = true <-> In x l.
Proof.
  rewrite existsb_exists; split.
  - intros [y [Hy E]]. apply eqb_eq in E. now subst.
  - intros H. exists x. split; [assumption | now apply eqb_eq].
Qed.

Lemma dedup_In (x : A) (l : list A) : In x (dedup eqb l) <-> In x l.
Proof.
  induction l as [|y l IH]; simpl; [tauto|].
  destruct (existsb (eqb y) l) eqn:E.
  - rewrite IH. split; [auto|].
    intros [<-|H]; [now apply existsb_eqb_In | assumption].
  - simpl. now rewrite IH.
Qed.

Lemma dedup_NoDup (l : list A) : NoDup (dedup eqb l).
Proof.
  induction l as [|y l IH]; simpl; [constructor|].
  destruct (existsb (eqb y) l) eqn:E; [assumption|].
  constructor; [|assumption].
  rewrite dedup_In, <- existsb_eqb_In, E. discriminate.
Qed.
End Lists.

Lemma filter_filter {A} (p q : A -> bool) (l : list A) :
  filter q (filter p l) = filter (fun x => p x && q x) l.
Proof.
  induction l as [|x l IH]; simpl; [reflexivity|].
  destruct (p x); simpl; [destruct (q x)|]; now rewrite IH.
Qed.

(* ------------------------------------------------------------------ *)
(** ** Running the session primitives *)

Lemma statement_run (s : session) :
  statement s
  = (match faults s with
     | Some e :: _ => Raise e
     | _ => Return tt
     end, after_statement s).
Proof.
  destruct s as [st wk fl sg]; unfold statement, after_statement; simpl.
  destruct fl as [|[e|] fl]; reflexivity.
Qed.

Lemma statement_quiet (s : session) :
  faults s = [] -> statement s = (Return tt, s).
Proof.
  intros H. destruct s as [st wk fl sg]; simpl in H; subst. reflexivity.
Qed.

Lemma one_quiet {A} (q : Query A) (s : session) :
  faults s = [] ->
  one q s = (match q (work s) with
             | [] => Raise NoResultFound
             | [x] => Return x
             | _ => Raise MultipleResultsFound
             end, s).
Proof.
  intros H. unfold one, bind. rewrite (statement_quiet s H).
  unfold get_work. destruct (q (work s)) as [|x [|y l]]; reflexivity.
Qed.

Lemma commit_quiet (s : session) :
  faults s = [] ->
  commit s
  = if consistent (work s)
    then (Return tt, mkSession (work s) (work s) (faults s) (signals s))
    else (Raise IntegrityError,
          mkSession (stored s) (stored s) (faults s) (signals s)).
Proof.
  intros H. unfold commit, try_except, bind. rewrite (statement_quiet s H).
  unfold get_work. destruct (consistent (work s)); reflexivity.
Qed.

(** [commit] on any session: a failing statement or a refused flush
    rolls the session back to the committed tables. *)
Lemma commit_run (s : session) :
  commit s
  = match faults s with
    | Some e :: _ =>
        (Raise e,
         mkSession (stored s) (stored s) (tl (faults s)) (signals s))
    | _ =>
        if consistent (work s)
        then (Return tt,
              mkSession (work s) (work s) (tl (faults s)) (signals s))
        else (Raise IntegrityError,
              mkSession (stored s) (stored s) (tl (faults s)) (signals s))
    end.
Proof.
  unfold commit, try_except, bind. rewrite statement_run.
  unfold get_work, after_statement.
  destruct (faults s) as [|[e|] fl]; simpl; try reflexivity;
    destruct (consistent (work s)); reflexivity.
Qed.

(** A statement, and so a query, never changes what is stored or pending. *)
Lemma one_tables {A} (q : Query A) (s : session) :
  snd (one q s) = after_statement s.
Proof.
  unfold one, bind. rewrite statement_run.
  destruct (faults s) as [|[e|] fl]; simpl; try reflexivity;
    destruct (q (work s)) as [|x [|y l]]; reflexivity.
Qed.

Lemma one_result {A} (q : Query A) (s : session) :
  fst (one q s)
  = if fails s
    then match faults s with
         | Some e :: _ => Raise e
         | _ => Raise OperationalError
         end
    else match q (work s) with
         | [] => Raise NoResultFound
         | [x] => Return x
         | _ => Raise MultipleResultsFound
         end.
Proof.
  unfold one, bind, fails. rewrite statement_run.
  destruct (faults s) as [|[e|] fl]; simpl; try reflexivity;
    destruct (q (work s)) as [|x [|y l]]; reflexivity.
Qed.

(** [try: return query.one() except Exception: return None] *)
Lemma guarded_one {A} (q : Query A) (s : session) :
  try_except (x <- one q ;; ret (Some x)) is_Exception (fun _ => ret None) s
  = (Return (if fails s then None else sole (q (work s))), after_statement s).
Proof.
  unfold try_except, one, bind, fails. rewrite statement_run.
  destruct (faults s) as [|[e|] fl]; simpl; try reflexivity;
    destruct (q (work s)) as [|x [|y l]]; reflexivity.
Qed.

(* ------------------------------------------------------------------ *)
(** ** Lookups: [Membership.get], [GroupAdmin.get], [is_member], [is_admin] *)

(** C10. [Membership.get] and [GroupAdmin.get] never raise: they return
    the single matching row when the query runs and selects exactly one,
    and [None] in every other case, a failing statement included; so
    [Group.is_member] and [Group.is_admin] always return a boolean. *)
Theorem lookups_are_total (group : Group) (p : principal)
    (with_pending : bool) (s : session) :
  Membership.get group p s
  = (Return (if fails s then None
             else sole (filter (fun r => Nat.eqb (id_user r) (get_id p)
                                         && Nat.eqb (id_group r) (id group))
                               (t_member (work s)))),
     after_statement s)
  /\ GroupAdmin.get group p s
     = (Return (if fails s then None
                else sole (filter
                             (fun r => Nat.eqb (group_id r) (id group)
                                       && Nat.eqb (admin_id r) (get_id p)
                                       && String.eqb (admin_type r)
                                            (resolve_admin_type p))
                             (t_admin (work s)))),
        after_statement s)
  /\ (exists b, Group.is_member group p with_pending s
                = (Return b, after_statement s))
  /\ (exists b, Group.is_admin group p s = (Return b, after_statement s)).
Proof.
  assert (Hm := guarded_one
    (fun t => filter (fun r => Nat.eqb (id_user r) (get_id p)
                               && Nat.eqb (id_group r) (id group))
                     (t_member t)) s).
  assert (Ha := guarded_one
    (fun t => filter (fun r => Nat.eqb (group_id r) (id group)
                               && Nat.eqb (admin_id r) (get_id p)
                               && String.eqb (admin_type r)
                                             (resolve_admin_type p))
                     (t_admin t)) s).
  repeat split.
  - exact Hm.
  - exact Ha.
  - unfold Group.is_member, bind, Membership.get. rewrite Hm. clear Hm Ha.
    destruct (fails s); [eexists; reflexivity|].
    destruct (sole _) as [m|]; [|eexists; reflexivity].
    destruct with_pending; [eexists; reflexivity|].
    destruct (String.eqb (state m) MembershipState.ACTIVE);
      eexists; reflexivity.
  - unfold Group.is_admin, bind, GroupAdmin.get. rewrite Ha. clear Hm Ha.
    destruct (fails s); [eexists; reflexivity|].
    destruct (sole _); eexists; reflexivity.
Qed.

(* ------------------------------------------------------------------ *)
(** ** Counting members *)

(** C2 as stated does not hold: [readers] has one row, a request that
    awaits approval, and [members_count] answers 0. *)
Lemma members_count_skips_pending :
  List.length (rows_of_group Ex.delegated (id Ex.readers)) = 1
  /\ Group.members_count Ex.readers (Ex.idle Ex.delegated)
     = (Return 0, Ex.idle Ex.delegated).
Proof. split; reflexivity. Qed.

(** C2, amended. [members_count] is the number of ACTIVE rows of the
    group: [query_by_group] is called without a [state] keyword and
    [_filter] then keeps the ACTIVE rows only.  When the statement fails
    the error reaches the caller. *)
Theorem members_count_counts_active (self : Group) (s : session) :
  Group.members_count self s
  = (match faults s with
     | Some e :: _ => Raise e
     | _ => Return (List.length (active_rows_of_group (work s) (id self)))
     end, after_statement s).
Proof.
  unfold Group.members_count, count, bind. rewrite statement_run.
  unfold get_work, ret, active_rows_of_group, Membership.query_by_group,
    Membership._filter; simpl.
  rewrite filter_filter.
  destruct (faults s) as [|[e|] fl]; reflexivity.
Qed.

(* ------------------------------------------------------------------ *)
(** ** Pending requests seen by an admin *)

Lemma in_query_by_admin (admin : principal) (t : tables) (gid : nat) :
  existsb (Nat.eqb gid) (map group_id (GroupAdmin.query_by_admin admin t))
  = true
  <-> administers t (resolve_admin_type admin) (get_id admin) gid.
Proof.
  rewrite existsb_exists. unfold administers, GroupAdmin.query_by_admin.
  split.
  - intros [x [Hx E]]. apply Nat.eqb_eq in E. subst x.
    apply in_map_iff in Hx. destruct Hx as [ga [Hg Hin]].
    apply filter_In in Hin. destruct Hin as [Hin Hp].
    apply andb_true_iff in Hp. destruct Hp as [Hty Hid].
    apply String.eqb_eq in Hty. apply Nat.eqb_eq in Hid.
    exists ga. auto.
  - intros [ga [Hin [Hty [Hid Hg]]]]. exists gid. split.
    + apply in_map_iff. exists ga. split; [assumption|].
      apply filter_In. split; [assumption|].
      apply andb_true_iff. split;
        [now apply String.eqb_eq | now apply Nat.eqb_eq].
    + apply Nat.eqb_refl.
Qed.

Lemma in_active_groups (user : principal) (t : tables) (gid : nat) :
  existsb (Nat.eqb gid)
    (map id_group
         (Membership.query_by_user user (Some MembershipState.ACTIVE) t))
  = true
  <-> active_member t (get_id user) gid.
Proof.
  rewrite existsb_exists.
  unfold active_member, Membership.query_by_user, Membership._filter.
  split.
  - intros [x [Hx E]]. apply Nat.eqb_eq in E. subst x.
    apply in_map_iff in Hx. destruct Hx as [m [Hg Hin]].
    apply filter_In in Hin. destruct Hin as [Hin Hst].
    apply filter_In in Hin. destruct Hin as [Hin Hu].
    apply String.eqb_eq in Hst. apply Nat.eqb_eq in Hu.
    exists m. auto.
  - intros [m [Hin [Hu [Hg Hst]]]]. exists gid. split.
    + apply in_map_iff. exists m. split; [assumption|].
      apply filter_In. split; [|now apply String.eqb_eq].
      apply filter_In. split; [assumption | now apply Nat.eqb_eq].
    + apply Nat.eqb_refl.
Qed.

Lemma in_delegated_groups (user : principal) (t : tables) (gid : nat) :
  existsb (Nat.eqb gid)
    (map group_id
       (filter (fun a => String.eqb (admin_type a) "Group"
                         && existsb (Nat.eqb (admin_id a))
                              (map id_group
                                 (Membership.query_by_user user
                                    (Some MembershipState.ACTIVE) t)))
               (t_admin t)))
  = true
  <-> exists g2, active_member t (get_id user) g2
                 /\ administers t "Group" g2 gid.
Proof.
  rewrite existsb_exists. split.
  - intros [x [Hx E]]. apply Nat.eqb_eq in E. subst x.
    apply in_map_iff in Hx. destruct Hx as [ga [Hg Hin]].
    apply filter_In in Hin. destruct Hin as [Hin Hp].
    apply andb_true_iff in Hp. destruct Hp as [Hty Hact].
    apply String.eqb_eq in Hty. apply in_active_groups in Hact.
    exists (admin_id ga). split; [assumption|].
    exists ga. auto.
  - intros [g2 [Hact [ga [Hin [Hty [Hid Hg]]]]]]. exists gid. split.
    + apply in_map_iff. exists ga. split; [assumption|].
      apply filter_In. split; [assumption|].
      apply andb_true_iff. split; [now apply String.eqb_eq|].
      apply in_active_groups. now rewrite Hid.
    + apply Nat.eqb_refl.
Qed.

(** C7. [Membership.query_requests admin] selects, each once, exactly the
    PENDING_ADMIN rows whose group has the admin registered on it, or has
    a group registered on it (admin type "Group") in which the admin is an
    ACTIVE member.  In particular a request on G1 is among the requests
    of U when G2 is an admin of G1 and U an ACTIVE member of G2. *)
Theorem query_requests_exact (admin : principal) (t : tables) :
  (forall m,
     In m (Membership.query_requests admin t)
     <-> In m (t_member t)
         /\ state m = MembershipState.PENDING_ADMIN
         /\ (administers t (resolve_admin_type admin) (get_id admin)
                         (id_group m)
             \/ exists g2, active_member t (get_id admin) g2
                           /\ administers t "Group" g2 (id_group m)))
  /\ NoDup (Membership.query_requests admin t)
  /\ (forall (G1 G2 : Group) (m : Membership),
        administers t "Group" (id G2) (id G1) ->
        active_member t (get_id admin) (id G2) ->
        In m (t_member t) ->
        id_group m = id G1 ->
        state m = MembershipState.PENDING_ADMIN ->
        In m (Membership.query_requests admin t)).
Proof.
  assert (Hiff : forall m,
     In m (Membership.query_requests admin t)
     <-> In m (t_member t)
         /\ state m = MembershipState.PENDING_ADMIN
         /\ (administers t (resolve_admin_type admin) (get_id admin)
                         (id_group m)
             \/ exists g2, active_member t (get_id admin) g2
                           /\ administers t "Group" g2 (id_group m))).
  { intros m. unfold Membership.query_requests, union.
    rewrite (dedup_In _ _ membership_eqb_eq), in_app_iff, !filter_In,
      !andb_true_iff, !String.eqb_eq, in_query_by_admin,
      in_delegated_groups.
    tauto. }
  split; [exact Hiff|]. split.
  - unfold Membership.query_requests, union.
    apply (dedup_NoDup _ _ membership_eqb_eq).
  - intros G1 G2 m Hadm Hact Hin Hg Hst. apply Hiff.
    split; [assumption|]. split; [assumption|].
    right. exists (id G2). rewrite Hg. auto.
Qed.

(** Run of C7: [alice], an active member of [editors], sees [bob]'s
    request on [readers], which [editors] administers. *)
Lemma query_requests_exact_witness :
  In (mkMembership 2 1 MembershipState.PENDING_ADMIN)
     (Membership.query_requests (UserObj Ex.alice) Ex.delegated).
Proof.
  apply (proj2 (proj2 (query_requests_exact (UserObj Ex.alice) Ex.delegated))
           Ex.readers Ex.editors).
  - exists (mkGroupAdmin 1 1 "Group" 2). simpl. auto.
  - exists (mkMembership 1 2 MembershipState.ACTIVE). simpl. auto.
  - simpl. auto.
  - reflexivity.
  - reflexivity.
Defined.

(* ------------------------------------------------------------------ *)
(** ** Constraints under the updates the models make *)

Lemma distinct_app_one {K} (eqb : K -> K -> bool) (l : list K) (k : K) :
  distinct eqb (l ++ [k])
  = distinct eqb l && negb (existsb (fun x => eqb x k) l).
Proof.
  induction l as [|x l IH]; simpl; [reflexivity|].
  rewrite IH, existsb_app; simpl. rewrite orb_false_r.
  destruct (existsb (eqb x) l), (eqb x k), (distinct eqb l); simpl;
    try reflexivity; now rewrite ?andb_false_r.
Qed.

Lemma distinct_filter {A K} (eqb : K -> K -> bool) (key : A -> K)
    (p : A -> bool) (l : list A) :
  distinct eqb (map key l) = true ->
  distinct eqb (map key (filter p l)) = true.
Proof.
  induction l as [|x l IH]; simpl; [auto|].
  rewrite andb_true_iff, negb_true_iff. intros [Hx Hl].
  destruct (p x); simpl; [|auto].
  rewrite andb_true_iff, negb_true_iff. split; [|auto].
  destruct (existsb (eqb (key x)) (map key (filter p l))) eqn:E;
    [|reflexivity].
  rewrite <- Hx. symmetry.
  apply existsb_exists in E. destruct E as [k [Hk Ek]].
  apply existsb_exists. exists k. split; [|assumption].
  apply in_map_iff in Hk. destruct Hk as [y [Hy Hin]].
  apply filter_In in Hin. apply in_map_iff. exists y. tauto.
Qed.

Lemma forallb_map_comp {A B} (f : B -> bool) (g : A -> B) (l : list A) :
  forallb f (map g l) = forallb (fun x => f (g x)) l.
Proof.
  induction l as [|x l IH]; simpl; [reflexivity | now rewrite IH].
Qed.

Lemma forallb_same {A} (f g : A -> bool) (l : list A) :
  (forall x, In x l -> f x = g x) -> forallb f l = forallb g l.
Proof.
  induction l as [|x l IH]; simpl; intros H; [reflexivity|].
  rewrite (H x), IH; auto.
Qed.

Lemma consistent_parts (t : tables) :
  consistent t = true
  <-> distinct Nat.eqb (map id (t_group t)) = true
      /\ distinct String.eqb (map name (t_group t)) = true
      /\ distinct pair_eqb (map member_key (t_member t)) = true
      /\ forallb (fun m => has_user t (id_user m)
                           && has_group t (id_group m)) (t_member t) = true
      /\ distinct Nat.eqb (map ga_id (t_admin t)) = true
      /\ distinct triple_eqb (map admin_key (t_admin t)) = true
      /\ forallb (fun a => has_group t (group_id a)) (t_admin t) = true.
Proof. unfold consistent. rewrite !andb_true_iff. tauto. Qed.

Lemma has_membership_keys (t : tables) (uid gid : nat) :
  has_membership t uid gid
  = existsb (fun k => pair_eqb k (uid, gid)) (map member_key (t_member t)).
Proof.
  unfold has_membership. induction (t_member t) as [|r l IH]; simpl;
    [reflexivity | now rewrite IH].
Qed.

(** Inserting a row for a pair that has none keeps the schema satisfied. *)
Lemma consistent_add_membership (t : tables) (m : Membership) :
  consistent t = true ->
  has_user t (id_user m) = true ->
  has_group t (id_group m) = true ->
  has_membership t (id_user m) (id_group m) = false ->
  consistent (with_members t (t_member t ++ [m])) = true.
Proof.
  intros Hc Hu Hg Hn. apply consistent_parts in Hc.
  destruct Hc as (H1 & H2 & H3 & H4 & H5 & H6 & H7).
  apply consistent_parts. simpl. repeat split; try assumption.
  - rewrite map_app; simpl. rewrite distinct_app_one, H3; simpl.
    rewrite has_membership_keys in Hn.
    change (id_user m, id_group m) with (member_key m) in Hn.
    now rewrite Hn.
  - rewrite forallb_app; simpl. unfold has_user, has_group in *; simpl.
    rewrite Hu, Hg; simpl. now rewrite andb_true_r.
Qed.

(** Inserting a second row for a pair is refused. *)
Lemma inconsistent_add_membership (t : tables) (m : Membership) :
  has_membership t (id_user m) (id_group m) = true ->
  consistent (with_members t (t_member t ++ [m])) = false.
Proof.
  intros Hn. unfold consistent; simpl.
  rewrite map_app; simpl. rewrite distinct_app_one.
  rewrite has_membership_keys in Hn.
  change (id_user m, id_group m) with (member_key m) in Hn.
  rewrite Hn; simpl. now rewrite !andb_false_r.
Qed.

Lemma replace_membership_key (m r : Membership) :
  member_key (replace_membership m r) = member_key r.
Proof.
  unfold replace_membership.
  destruct (pair_eqb (member_key r) (member_key m)) eqn:E; [|reflexivity].
  apply pair_eqb_eq in E. now symmetry.
Qed.

(** Changing the state of a row keeps the schema satisfied. *)
Lemma consistent_set_membership (t : tables) (m : Membership) :
  consistent (with_members t (map (replace_membership m) (t_member t)))
  = consistent t.
Proof.
  unfold consistent; simpl.
  assert (Hk : map member_key (map (replace_membership m) (t_member t))
               = map member_key (t_member t)).
  { rewrite map_map. apply map_ext. apply replace_membership_key. }
  rewrite Hk. rewrite forallb_map_comp.
  assert (Hf : forallb
                 (fun x => has_user (with_members t
                                       (map (replace_membership m)
                                            (t_member t)))
                             (id_user (replace_membership m x))
                           && has_group (with_members t
                                           (map (replace_membership m)
                                                (t_member t)))
                                (id_group (replace_membership m x)))
                 (t_member t)
               = forallb (fun x => has_user t (id_user x)
                                   && has_group t (id_group x))
                         (t_member t)).
  { apply forallb_same. intros x _.
    assert (E := replace_membership_key m x). unfold member_key in E.
    inversion E as [[E1 E2]]. rewrite E1, E2. reflexivity. }
  rewrite Hf. reflexivity.
Qed.

(* ------------------------------------------------------------------ *)
(** ** [Membership.create] *)

Lemma Membership_create_fresh (group : Group) (user : principal)
    (st : string) (s : session) :
  clean s -> consistent (stored s) = true -> faults s = [] ->
  has_user (stored s) (get_id user) = true ->
  has_group (stored s) (id group) = true ->
  has_membership (stored s) (get_id user) (id group) = false ->
  let m := mkMembership (get_id user) (id group) st in
  Membership.create group user st s
  = (Return m,
     mkSession (inserted (stored s) m) (inserted (stored s) m) []
               (signals s)).
Proof.
  intros Hcl Hc Hf Hu Hg Hn m.
  destruct s as [sto wk fl sg]; unfold clean in Hcl; simpl in *; subst.
  unfold Membership.create, try_except, bind, add_membership, get_work,
    put_work; simpl.
  rewrite commit_quiet by reflexivity. simpl.
  fold m. change (with_members sto (t_member sto ++ [m])) with (inserted sto m).
  unfold inserted. rewrite (consistent_add_membership sto m Hc Hu Hg Hn).
  reflexivity.
Qed.

Lemma Membership_create_duplicate (group : Group) (user : principal)
    (st : string) (s : session) :
  clean s -> faults s = [] ->
  has_membership (stored s) (get_id user) (id group) = true ->
  Membership.create group user st s = (Raise IntegrityError, s).
Proof.
  intros Hcl Hf Hn.
  destruct s as [sto wk fl sg]; unfold clean in Hcl; simpl in *; subst.
  unfold Membership.create, try_except, bind, add_membership, get_work,
    put_work; simpl.
  rewrite commit_quiet by reflexivity. simpl.
  rewrite (inconsistent_add_membership sto
             (mkMembership (get_id user) (id group) st) Hn).
  reflexivity.
Qed.

Lemma after_statement_quiet (s : session) :
  faults s = [] -> after_statement s = s.
Proof.
  intros H. destruct s as [sto wk fl sg]; simpl in H; subst. reflexivity.
Qed.

Lemma is_admin_run (self : Group) (admin : principal) (s : session) :
  exists b, Group.is_admin self admin s = (Return b, after_statement s).
Proof.
  unfold Group.is_admin, bind, GroupAdmin.get. rewrite guarded_one.
  destruct (fails s); [eexists; reflexivity|].
  destruct (sole _); eexists; reflexivity.
Qed.

Lemma triple_eqb_refl (k : nat * string * nat) : triple_eqb k k = true.
Proof.
  destruct k as [[g ty] i]; simpl.
  now rewrite !Nat.eqb_refl, String.eqb_refl.
Qed.

(** Rows with pairwise distinct keys: at most one has a given key. *)
Lemma distinct_one_key {A} (key : A -> nat * string * nat)
    (k : nat * string * nat) (l : list A) :
  distinct triple_eqb (map key l) = true ->
  (forall x, In x l -> key x = k) ->
  l = [] \/ exists x, l = [x].
Proof.
  destruct l as [|a [|b l]]; [now left | right; now exists a |].
  simpl. intros H Hk. exfalso.
  rewrite (Hk a), (Hk b) in H by (simpl; auto).
  rewrite triple_eqb_refl in H. discriminate.
Qed.

(** On consistent tables [is_admin] answers [True] exactly for the
    objects registered on the group. *)
Lemma is_admin_registered (self : Group) (X : principal) (s : session) :
  faults s = [] -> consistent (work s) = true ->
  fst (Group.is_admin self X s) = Return true
  <-> administers (work s) (resolve_admin_type X) (get_id X) (id self).
Proof.
  intros Hf Hc. unfold Group.is_admin, bind, GroupAdmin.get.
  rewrite guarded_one. unfold fails. rewrite Hf.
  set (l := filter _ (t_admin (work s))).
  assert (Hl : forall ga, In ga l
                 <-> In ga (t_admin (work s))
                     /\ group_id ga = id self /\ admin_id ga = get_id X
                     /\ admin_type ga = resolve_admin_type X).
  { intros ga. unfold l.
    rewrite filter_In, !andb_true_iff, !Nat.eqb_eq, String.eqb_eq. tauto. }
  assert (Hone : l = [] \/ exists x, l = [x]).
  { apply (distinct_one_key admin_key
             (id self, resolve_admin_type X, get_id X)).
    - apply distinct_filter. apply consistent_parts in Hc. tauto.
    - intros x Hx. apply Hl in Hx. destruct Hx as (_ & E1 & E2 & E3).
      unfold admin_key. now rewrite E1, E2, E3. }
  split.
  - intros H. destruct Hone as [E|[x E]]; rewrite E in H; simpl in H;
      [discriminate|].
    assert (Hx : In x l) by (rewrite E; now left).
    apply Hl in Hx. exists x. tauto.
  - intros [ga Hga]. assert (Hx : In ga l) by (apply Hl; tauto).
    destruct Hone as [E|[x E]]; rewrite E in *; [elim Hx | reflexivity].
Qed.

(* ------------------------------------------------------------------ *)
(** ** Joining a group: [subscribe] and [invite] *)

(** C1. [subscribe] follows the subscription policy of the group.  Under
    CLOSED it returns [None] and touches nothing.  Under OPEN it inserts an
    ACTIVE row for the user and the group, under APPROVAL a PENDING_ADMIN
    row, and returns it; the insertion is the one of [Membership.create],
    which succeeds on a store that accepts statements, knows the user and
    the group and has no row for the pair yet. *)
Theorem subscribe_follows_policy (self : Group) (user : principal)
    (s : session) :
  (subscription_policy self = SubscriptionPolicy.CLOSED ->
   Group.subscribe self user s = (Return None, s))
  /\ (clean s -> consistent (stored s) = true -> faults s = [] ->
      has_user (stored s) (get_id user) = true ->
      has_group (stored s) (id self) = true ->
      has_membership (stored s) (get_id user) (id self) = false ->
      (subscription_policy self = SubscriptionPolicy.OPEN ->
       let m := mkMembership (get_id user) (id self)
                             MembershipState.ACTIVE in
       Group.subscribe self user s
       = (Return (Some m),
          mkSession (inserted (stored s) m) (inserted (stored s) m) []
                    (signals s)))
      /\ (subscription_policy self = SubscriptionPolicy.APPROVAL ->
          let m := mkMembership (get_id user) (id self)
                                MembershipState.PENDING_ADMIN in
          Group.subscribe self user s
          = (Return (Some m),
             mkSession (inserted (stored s) m) (inserted (stored s) m) []
                       (signals s)))).
Proof.
  split.
  - intros Hp. unfold Group.subscribe. rewrite Hp. reflexivity.
  - intros Hcl Hc Hf Hu Hg Hn. split; intros Hp m;
      unfold Group.subscribe, Group.add_member, bind; rewrite Hp; simpl.
    + rewrite (Membership_create_fresh self user MembershipState.ACTIVE s
                 Hcl Hc Hf Hu Hg Hn).
      reflexivity.
    + rewrite (Membership_create_fresh self user
                 MembershipState.PENDING_ADMIN s Hcl Hc Hf Hu Hg Hn).
      reflexivity.
Qed.

(** Run of C1 on the three example groups, one per policy. *)
Lemma subscribe_follows_policy_witness :
  let s := Ex.idle Ex.empty_groups in
  fst (Group.subscribe Ex.readers (UserObj Ex.alice) s)
  = Return (Some (mkMembership 1 1 MembershipState.ACTIVE))
  /\ fst (Group.subscribe Ex.editors (UserObj Ex.alice) s)
     = Return (Some (mkMembership 1 2 MembershipState.PENDING_ADMIN))
  /\ Group.subscribe Ex.board (UserObj Ex.alice) s = (Return None, s).
Proof.
  intros s. split; [|split].
  - rewrite (proj1 (proj2 (subscribe_follows_policy Ex.readers
                             (UserObj Ex.alice) s)
                      eq_refl eq_refl eq_refl eq_refl eq_refl eq_refl)
               eq_refl).
    reflexivity.
  - rewrite (proj2 (proj2 (subscribe_follows_policy Ex.editors
                             (UserObj Ex.alice) s)
                      eq_refl eq_refl eq_refl eq_refl eq_refl eq_refl)
               eq_refl).
    reflexivity.
  - exact (proj1 (subscribe_follows_policy Ex.board (UserObj Ex.alice) s)
             eq_refl).
Defined.

(** C8. On a store that accepts statements, knows the user and the group
    and has no row for the pair, [invite user admin] inserts a
    PENDING_USER row and returns it exactly when [admin] is omitted or is
    an admin of the group, that is, registered on it in [groupADMIN];
    when [admin] is given and is not an admin, it returns [None] without
    raising and inserts nothing. *)
Theorem invite_requires_admin (self : Group) (user : principal)
    (admin : option principal) (s : session) :
  clean s -> consistent (stored s) = true -> faults s = [] ->
  has_user (stored s) (get_id user) = true ->
  has_group (stored s) (id self) = true ->
  has_membership (stored s) (get_id user) (id self) = false ->
  let m := mkMembership (get_id user) (id self)
                        MembershipState.PENDING_USER in
  (allows_invite self admin s ->
   Group.invite self user admin s
   = (Return (Some m),
      mkSession (inserted (stored s) m) (inserted (stored s) m) []
                (signals s)))
  /\ (~ allows_invite self admin s ->
      Group.invite self user admin s = (Return None, s))
  /\ ((exists r s', Group.invite self user admin s = (Return (Some r), s'))
      <-> allows_invite self admin s)
  /\ (forall X, admin = Some X ->
                (allows_invite self admin s
                 <-> administers (stored s) (resolve_admin_type X)
                                 (get_id X) (id self))).
Proof.
  intros Hcl Hc Hf Hu Hg Hn m.
  assert (Hyes : allows_invite self admin s ->
                 Group.invite self user admin s
                 = (Return (Some m),
                    mkSession (inserted (stored s) m)
                              (inserted (stored s) m) [] (signals s))).
  { intros Ha. unfold Group.invite, Group.add_member, bind.
    destruct admin as [X|]; simpl in *.
    - destruct (is_admin_run self X s) as [b Hb]. rewrite Hb in *.
      simpl in Ha. inversion Ha; subst b.
      rewrite (after_statement_quiet s Hf).
      rewrite (Membership_create_fresh self user
                 MembershipState.PENDING_USER s Hcl Hc Hf Hu Hg Hn).
      reflexivity.
    - rewrite (Membership_create_fresh self user
                 MembershipState.PENDING_USER s Hcl Hc Hf Hu Hg Hn).
      reflexivity. }
  assert (Hno : ~ allows_invite self admin s ->
                Group.invite self user admin s = (Return None, s)).
  { intros Ha. unfold Group.invite, bind.
    destruct admin as [X|]; simpl in *; [|tauto].
    destruct (is_admin_run self X s) as [b Hb]. rewrite Hb in *.
    simpl in Ha. destruct b; [now elim Ha|].
    now rewrite (after_statement_quiet s Hf). }
  split; [exact Hyes|]. split; [exact Hno|].
  split; [|intros X ->; unfold allows_invite; rewrite <- Hcl;
           apply is_admin_registered; [assumption | now rewrite Hcl]].
  split.
  - intros [r [s' Hr]].
    assert (Hd : allows_invite self admin s \/ ~ allows_invite self admin s).
    { unfold allows_invite. destruct admin as [X|]; [|now left].
      destruct (is_admin_run self X s) as [b Hb]. rewrite Hb; simpl.
      destruct b; [now left | right; discriminate]. }
    destruct Hd as [Ha|Ha]; [assumption|].
    rewrite (Hno Ha) in Hr. discriminate.
  - intros Ha. eexists. eexists. exact (Hyes Ha).
Qed.

(** Run of C8: [alice] administers [board] and may invite [bob]; [bob]
    does not, and his invitation of himself is dropped. *)
Lemma invite_requires_admin_witness :
  let s := Ex.idle Ex.administered in
  fst (Group.invite Ex.board (UserObj Ex.bob) (Some (UserObj Ex.alice)) s)
  = Return (Some (mkMembership 2 3 MembershipState.PENDING_USER))
  /\ Group.invite Ex.board (UserObj Ex.bob) (Some (UserObj Ex.bob)) s
     = (Return None, s).
Proof.
  intros s. split.
  - rewrite (proj1 (invite_requires_admin Ex.board (UserObj Ex.bob)
                      (Some (UserObj Ex.alice)) s
                      eq_refl eq_refl eq_refl eq_refl eq_refl eq_refl)
               eq_refl).
    reflexivity.
  - apply (proj1 (proj2 (invite_requires_admin Ex.board (UserObj Ex.bob)
                           (Some (UserObj Ex.bob)) s
                           eq_refl eq_refl eq_refl eq_refl eq_refl eq_refl))).
    simpl. discriminate.
Defined.

(* ------------------------------------------------------------------ *)
(** ** [Membership.accept] *)

Lemma accept_run (self : Membership) (s : session) :
  let t' := with_members (work s)
              (map (replace_membership (activated self))
                   (t_member (work s))) in
  Membership.accept self s
  = match faults s with
    | Some e :: _ =>
        (Raise e,
         mkSession (stored s) (stored s) (tl (faults s)) (signals s))
    | _ =>
        if consistent t'
        then (Return (activated self),
              mkSession t' t' (tl (faults s)) (signals s))
        else (Raise IntegrityError,
              mkSession (stored s) (stored s) (tl (faults s)) (signals s))
    end.
Proof.
  intros t'.
  unfold Membership.accept, set_membership, bind, get_work, put_work.
  rewrite commit_run. cbn [work stored faults signals].
  fold (activated self). fold t'.
  destruct (faults s) as [|[e|] fl]; simpl; try reflexivity;
    destruct (consistent t'); reflexivity.
Qed.

Lemma accept_quiet (self : Membership) (s : session) :
  faults s = [] -> consistent (work s) = true ->
  let t' := with_members (work s)
              (map (replace_membership (activated self))
                   (t_member (work s))) in
  Membership.accept self s
  = (Return (activated self), mkSession t' t' [] (signals s)).
Proof.
  intros Hf Hc t'.
  unfold Membership.accept, set_membership, bind, get_work, put_work.
  simpl. fold (activated self). rewrite commit_quiet by assumption. simpl.
  fold t'. unfold t'. rewrite consistent_set_membership, Hc. simpl.
  now rewrite Hf.
Qed.

Lemma replaced_rows_state (m : Membership) (l : list Membership) r :
  In r (map (replace_membership m) l) ->
  member_key r = member_key m -> r = m.
Proof.
  intros Hin Hk. apply in_map_iff in Hin. destruct Hin as [x [Hx _]].
  subst r. unfold replace_membership in *.
  destruct (pair_eqb (member_key x) (member_key m)) eqn:E; [reflexivity|].
  apply pair_eqb_eq in Hk. congruence.
Qed.

Lemma replace_membership_twice (m : Membership) (l : list Membership) :
  map (replace_membership m) (map (replace_membership m) l)
  = map (replace_membership m) l.
Proof.
  rewrite map_map. apply map_ext. intros x. unfold replace_membership.
  destruct (pair_eqb (member_key x) (member_key m)) eqn:E.
  - assert (R : pair_eqb (member_key m) (member_key m) = true)
      by now apply pair_eqb_eq.
    now rewrite R.
  - now rewrite E.
Qed.

(** C9. [accept] moves a membership to ACTIVE and to no other state.
    Whatever the session, a row of the pair that is pending or committed
    after the call is ACTIVE, or is a row that was committed before the
    call: when the commit fails the session rolls back and the row is as
    it was.  On a store that accepts statements the call returns, the
    committed row of a PENDING_USER, PENDING_ADMIN or ACTIVE membership is
    ACTIVE, and a second [accept] changes nothing. *)
Theorem accept_activates (self : Membership) (s : session) :
  (forall r, In r (t_member (work (snd (Membership.accept self s)))) ->
             member_key r = member_key self ->
             state r = MembershipState.ACTIVE
             \/ In r (t_member (stored s)))
  /\ (forall r, In r (t_member (stored (snd (Membership.accept self s)))) ->
                member_key r = member_key self ->
                state r = MembershipState.ACTIVE
                \/ In r (t_member (stored s)))
  /\ (clean s -> consistent (stored s) = true -> faults s = [] ->
      In self (t_member (stored s)) ->
      exists s',
        Membership.accept self s = (Return (activated self), s')
        /\ clean s'
        /\ In (activated self) (t_member (stored s'))
        /\ (forall r, In r (t_member (stored s')) ->
                      member_key r = member_key self ->
                      state r = MembershipState.ACTIVE)
        /\ Membership.accept (activated self) s'
           = (Return (activated self), s')).
Proof.
  assert (Hany : forall r,
            (In r (t_member (work (snd (Membership.accept self s))))
             \/ In r (t_member (stored (snd (Membership.accept self s))))) ->
            member_key r = member_key self ->
            state r = MembershipState.ACTIVE
            \/ In r (t_member (stored s))).
  { intros r Hin Hk. rewrite accept_run in Hin.
    destruct (faults s) as [|[e|] fl]; simpl in Hin;
      try (right; tauto);
      (destruct (consistent _); simpl in Hin; [|right; tauto]);
      left;
      (assert (E : r = activated self)
         by (apply (replaced_rows_state (activated self)
                      (t_member (work s)) r); tauto));
      now subst r. }
  split; [intros r Hr; apply Hany; now left|].
  split; [intros r Hr; apply Hany; now right|].
  intros Hcl Hc Hf Hin. unfold clean in Hcl.
  assert (Hcw : consistent (work s) = true) by now rewrite Hcl.
  eexists. split; [apply (accept_quiet self s Hf Hcw)|].
  split; [reflexivity|]. simpl. split; [|split].
  - apply in_map_iff. exists self. split.
    + unfold replace_membership.
      assert (R : pair_eqb (member_key self) (member_key (activated self))
                  = true) by now apply pair_eqb_eq.
      now rewrite R.
    + now rewrite Hcl.
  - intros r Hr Hk.
    assert (E : r = activated self)
      by (apply (replaced_rows_state _ _ _ Hr); exact Hk).
    now subst r.
  - rewrite accept_quiet; simpl; try reflexivity.
    + unfold activated at 1 2 3; simpl. fold (activated self).
      now rewrite replace_membership_twice.
    + now rewrite consistent_set_membership.
Qed.

(** Run of C9 on [bob]'s request to join [readers]. *)
Lemma accept_activates_witness :
  let self := mkMembership 2 1 MembershipState.PENDING_ADMIN in
  exists s',
    Membership.accept self (Ex.idle Ex.delegated)
    = (Return (mkMembership 2 1 MembershipState.ACTIVE), s')
    /\ In (mkMembership 2 1 MembershipState.ACTIVE) (t_member (stored s')).
Proof.
  intros self.
  destruct (proj2 (proj2 (accept_activates self (Ex.idle Ex.delegated)))
              eq_refl eq_refl eq_refl (or_intror (or_introl eq_refl)))
    as [s' [H1 [_ [H2 _]]]].
  exists s'. split; [exact H1 | exact H2].
Defined.

(* ------------------------------------------------------------------ *)
(** ** [Group.invite_by_emails] *)

(** The loop body returns on its first run, whatever the email: the
    emails after the first are never looked at. *)
Lemma invite_by_emails_first_only (self : Group) (e : string)
    (rest : list string) (s : session) :
  Group.invite_by_emails self (e :: rest) s
  = Group.invite_by_emails self [e] s.
Proof.
  unfold Group.invite_by_emails, bind; simpl. unfold bind, try_except.
  destruct (one (User.query_by_email e) s) as [[u|x] s1]; simpl;
    [|reflexivity].
  destruct (Group.invite self (UserObj u) None s1) as [[m|x] s2];
    reflexivity.
Qed.

(** C4. The claim fails on the code at a list whose first email is
    unknown: [alice@example.org] resolves to [alice], yet with an unknown
    email in front of it the call returns [None] and inserts nothing.
    With [alice]'s email first she is invited. *)
Theorem invite_by_emails_stops_at_unknown_email :
  let s := Ex.idle Ex.empty_groups in
  one (User.query_by_email "alice@example.org") s = (Return Ex.alice, s)
  /\ Group.invite_by_emails Ex.board
       ["nobody@example.org"; "alice@example.org"] s
     = (Return None, s)
  /\ fst (Group.invite_by_emails Ex.board
            ["alice@example.org"; "nobody@example.org"] s)
     = Return (Some (mkMembership 1 3 MembershipState.PENDING_USER)).
Proof. repeat split; reflexivity. Qed.

(* ------------------------------------------------------------------ *)
(** ** [Group.delete] *)

Lemma filter_same {A} (p q : A -> bool) (l : list A) :
  (forall x, In x l -> p x = q x) -> filter p l = filter q l.
Proof.
  induction l as [|x l IH]; simpl; intros H; [reflexivity|].
  rewrite (H x), IH; auto.
Qed.

(** A bulk delete of the rows a filter selects keeps the others. *)
Lemma bulk_delete_filter {A} (eqb : A -> A -> bool)
    (eqb_eq : forall a b, eqb a b = true <-> a = b)
    (p : A -> bool) (l : list A) :
  filter (fun r => negb (existsb (eqb r) (filter p l))) l
  = filter (fun r => negb (p r)) l.
Proof.
  apply filter_same. intros x Hx. f_equal.
  destruct (p x) eqn:E.
  - apply (existsb_eqb_In _ _ eqb_eq). apply filter_In. auto.
  - destruct (existsb (eqb x) (filter p l)) eqn:E'; [|reflexivity].
    apply (existsb_eqb_In _ _ eqb_eq) in E'. apply filter_In in E'.
    destruct E' as [_ E']. congruence.
Qed.

Lemma existsb_filter {A} (f p : A -> bool) (l : list A) :
  existsb f (filter p l) = existsb (fun x => p x && f x) l.
Proof.
  induction l as [|x l IH]; simpl; [reflexivity|].
  destruct (p x); simpl; now rewrite IH.
Qed.

Lemma existsb_weaken {A} (f g : A -> bool) (l : list A) :
  (forall x, f x = true -> g x = true) ->
  existsb f l = true -> existsb g l = true.
Proof.
  intros H. rewrite !existsb_exists. intros [x [Hx Hf]]. exists x. auto.
Qed.

Lemma has_group_without (t : tables) (gid x : nat) :
  Nat.eqb x gid = false ->
  has_group (without_group t gid) x = has_group t x.
Proof.
  intros Hx. unfold has_group, without_group; simpl.
  rewrite existsb_filter.
  induction (t_group t) as [|g l IH]; simpl; [reflexivity|].
  rewrite IH. f_equal.
  destruct (Nat.eqb (id g) x) eqn:E; [|now rewrite andb_false_r].
  apply Nat.eqb_eq in E. subst x. now rewrite Hx.
Qed.

Lemma forallb_filter_weaken {A} (f g p : A -> bool) (l : list A) :
  (forall x, p x = true -> f x = true -> g x = true) ->
  forallb f l = true -> forallb g (filter p l) = true.
Proof.
  intros H. rewrite !forallb_forall. intros Hf x Hx.
  apply filter_In in Hx. destruct Hx as [Hx Hp]. auto.
Qed.

Lemma consistent_without_group (t : tables) (gid : nat) :
  consistent t = true -> consistent (without_group t gid) = true.
Proof.
  intros Hc. apply consistent_parts in Hc.
  destruct Hc as (H1 & H2 & H3 & H4 & H5 & H6 & H7).
  apply consistent_parts.
  split; [apply distinct_filter, H1|].
  split; [apply distinct_filter, H2|].
  split; [apply distinct_filter, H3|].
  split; [|split; [apply distinct_filter, H5|
           split; [apply distinct_filter, H6|]]].
  - unfold without_group at 3; simpl.
    apply forallb_filter_weaken with (2 := H4). intros m Hp Hm.
    apply negb_true_iff in Hp. rewrite (has_group_without t _ _ Hp).
    exact Hm.
  - unfold without_group at 2; simpl.
    apply forallb_filter_weaken with (2 := H7). intros a Hp Ha.
    apply andb_true_iff in Hp. destruct Hp as [Hp _].
    apply negb_true_iff in Hp. now rewrite (has_group_without t _ _ Hp).
Qed.

Lemma has_group_In (t : tables) (g : Group) :
  In g (t_group t) -> has_group t (id g) = true.
Proof.
  intros H. unfold has_group. apply existsb_exists. exists g.
  split; [assumption | apply Nat.eqb_refl].
Qed.

(** A unique key names one row. *)
Lemma distinct_key_inj {A} (key : A -> string) (l : list A) (a b : A) :
  distinct String.eqb (map key l) = true ->
  In a l -> In b l -> key a = key b -> a = b.
Proof.
  induction l as [|x l IH]; simpl; [tauto|].
  rewrite andb_true_iff, negb_true_iff. intros [Hx Hl] Ha Hb E.
  assert (Hno : forall y, In y l -> key x <> key y).
  { intros y Hy Exy.
    assert (T : existsb (String.eqb (key x)) (map key l) = true).
    { apply existsb_exists. exists (key y). split.
      - apply in_map_iff. now exists y.
      - now apply String.eqb_eq. }
    congruence. }
  destruct Ha as [<-|Ha], Hb as [<-|Hb]; auto.
  - elim (Hno b Hb E).
  - elim (Hno a Ha (eq_sym E)).
Qed.

Lemma delete_group_run (g : Group) (s : session) :
  delete_group g s
  = if has_group (work s) (id g)
    then (Return tt,
          mkSession (stored s)
            (mkTables (t_user (work s))
               (filter (fun r => negb (Nat.eqb (id r) (id g)))
                       (t_group (work s)))
               (filter (fun r => negb (Nat.eqb (id_group r) (id g)))
                       (t_member (work s)))
               (filter (fun r => negb (Nat.eqb (group_id r) (id g)))
                       (t_admin (work s))))
            (faults s) (signals s))
    else (Raise InvalidRequestError, s).
Proof.
  unfold delete_group, bind, get_work, put_work.
  destruct (has_group (work s) (id g)); reflexivity.
Qed.

Lemma Group_delete_quiet (self : Group) (s : session) :
  clean s -> consistent (stored s) = true -> faults s = [] ->
  has_group (stored s) (id self) = true ->
  let t' := without_group (stored s) (id self) in
  Group.delete self s
  = (Return tt, mkSession t' t' [] (signals s ++ [group_deleted self])).
Proof.
  intros Hcl Hc Hf Hg t'.
  destruct s as [sto wk fl sg]; unfold clean in Hcl; simpl in *; subst.
  unfold Group.delete, try_except, bind, delete_memberships,
    delete_group_admins, get_work, put_work, statement.
  simpl. rewrite delete_group_run. simpl.
  match goal with |- context [has_group ?t (id self)] =>
    change (has_group t (id self)) with (has_group sto (id self)) end.
  rewrite Hg. rewrite commit_quiet by reflexivity. simpl.
  match goal with |- context [consistent ?t] =>
    assert (E : t = t') end.
  { unfold t', without_group. f_equal.
    - unfold Membership.query_by_group, Membership._filter; simpl.
      rewrite (filter_filter
                 (fun r => Nat.eqb (id_group r) (id self))
                 (fun r => String.eqb (state r) MembershipState.ACTIVE)
                 (t_member sto)).
      rewrite (bulk_delete_filter _ membership_eqb_eq).
      rewrite filter_filter. apply filter_same. intros m _.
      destruct (Nat.eqb (id_group m) (id self)); simpl;
        [now rewrite andb_false_r | reflexivity].
    - unfold GroupAdmin.query_by_group, GroupAdmin.query_by_admin; simpl.
      rewrite (bulk_delete_filter _ group_admin_eqb_eq).
      rewrite (bulk_delete_filter _ group_admin_eqb_eq).
      rewrite !filter_filter. apply filter_same. intros a _.
      destruct (Nat.eqb (group_id a) (id self)); simpl; [reflexivity|].
      now rewrite andb_true_r. }
  rewrite E. unfold t'. rewrite (consistent_without_group _ _ Hc).
  reflexivity.
Qed.

(** C3. On a store that accepts statements, [delete] returns and commits
    tables from which the group row is gone, with every membership of the
    group whatever its state, every [groupADMIN] row of the group and
    every row that names the group as an admin (type "Group") of another
    group; the rest is kept.  [get_by_name] for the group's name then
    returns [None]. *)
Theorem delete_removes_group (self : Group) (s : session) :
  clean s -> consistent (stored s) = true -> faults s = [] ->
  In self (t_group (stored s)) ->
  exists s',
    Group.delete self s = (Return tt, s')
    /\ clean s'
    /\ (forall g, In g (t_group (stored s'))
                  <-> In g (t_group (stored s)) /\ id g <> id self)
    /\ (forall m, In m (t_member (stored s'))
                  <-> In m (t_member (stored s)) /\ id_group m <> id self)
    /\ (forall a, In a (t_admin (stored s'))
                  <-> In a (t_admin (stored s))
                      /\ group_id a <> id self
                      /\ ~ (admin_type a = "Group" /\ admin_id a = id self))
    /\ t_user (stored s') = t_user (stored s)
    /\ signals s' = signals s ++ [group_deleted self]
    /\ Group.get_by_name (name self) s' = (Return None, s').
Proof.
  intros Hcl Hc Hf Hin.
  eexists. split.
  { apply (Group_delete_quiet self s Hcl Hc Hf (has_group_In _ _ Hin)). }
  simpl. split; [reflexivity|].
  split; [|split; [|split; [|split; [reflexivity|split; [reflexivity|]]]]].
  - intros g. rewrite filter_In, negb_true_iff, Nat.eqb_neq. tauto.
  - intros m. rewrite filter_In, negb_true_iff, Nat.eqb_neq. tauto.
  - intros a.
    rewrite filter_In, andb_true_iff, !negb_true_iff, Nat.eqb_neq.
    destruct (String.eqb_spec (admin_type a) "Group");
      destruct (Nat.eqb_spec (admin_id a) (id self)); simpl;
      intuition congruence.
  - unfold Group.get_by_name, try_except, bind.
    rewrite one_quiet by reflexivity. simpl.
    assert (E : filter (fun r => String.eqb (name r) (name self))
                  (filter (fun g => negb (Nat.eqb (id g) (id self)))
                          (t_group (stored s))) = []).
    { rewrite filter_filter.
      destruct (filter _ (t_group (stored s))) as [|g l] eqn:F;
        [reflexivity|].
      assert (Hg : In g (g :: l)) by now left.
      rewrite <- F in Hg. apply filter_In in Hg. destruct Hg as [Hg Hp].
      apply andb_true_iff in Hp. destruct Hp as [Hid Hn].
      apply String.eqb_eq in Hn. apply consistent_parts in Hc.
      destruct Hc as (_ & H2 & _).
      assert (g = self) by exact (distinct_key_inj name _ _ _ H2 Hg Hin Hn).
      subst g. now rewrite Nat.eqb_refl in Hid. }
    unfold Group.filter_by_name. simpl. rewrite E. reflexivity.
Qed.

(** Run of C3: deleting [readers] drops [bob]'s pending request on it
    and the row that makes [editors] its admin. *)
Lemma delete_removes_group_witness :
  exists s',
    Group.delete Ex.readers (Ex.idle Ex.delegated) = (Return tt, s')
    /\ t_member (stored s') = [mkMembership 1 2 MembershipState.ACTIVE]
    /\ t_admin (stored s') = []
    /\ Group.get_by_name "readers" s' = (Return None, s').
Proof.
  destruct (delete_removes_group Ex.readers (Ex.idle Ex.delegated)
              eq_refl eq_refl eq_refl (or_introl eq_refl))
    as [s' [H1 [_ [_ [_ [_ [_ [_ H2]]]]]]]].
  exists s'. split; [exact H1|].
  assert (E : s' = snd (Group.delete Ex.readers (Ex.idle Ex.delegated)))
    by now rewrite H1.
  split; [|split]; [subst s'; reflexivity | subst s'; reflexivity | exact H2].
Defined.

(* ------------------------------------------------------------------ *)
(** ** [Group.create] and [Group.get_by_name] *)

Lemma next_id_fresh (ids : list nat) :
  existsb (fun x => Nat.eqb x (next_id ids)) ids = false.
Proof.
  destruct (existsb _ ids) eqn:E; [|reflexivity].
  apply existsb_exists in E. destruct E as [x [Hx E]].
  apply Nat.eqb_eq in E. unfold next_id in E.
  assert (H : list_max ids <= list_max ids) by lia.
  rewrite list_max_le in H. rewrite Forall_forall in H.
  specialize (H x Hx). lia.
Qed.

Lemma has_name_keys (t : tables) (n : string) :
  has_name t n = existsb (fun k => String.eqb k n) (map name (t_group t)).
Proof.
  unfold has_name. induction (t_group t) as [|g l IH]; simpl;
    [reflexivity | now rewrite IH].
Qed.

Lemma has_group_more (t : tables) (g : Group) (x : nat) :
  has_group t x = true ->
  has_group (with_groups t (t_group t ++ [g])) x = true.
Proof.
  unfold has_group; simpl. rewrite existsb_app. intros ->. reflexivity.
Qed.

Lemma consistent_add_group (t : tables) (g : Group) :
  consistent t = true ->
  id g = next_id (map id (t_group t)) ->
  has_name t (name g) = false ->
  consistent (with_groups t (t_group t ++ [g])) = true.
Proof.
  intros Hc Hid Hn. apply consistent_parts in Hc.
  destruct Hc as (H1 & H2 & H3 & H4 & H5 & H6 & H7).
  apply consistent_parts. simpl. repeat split; try assumption.
  - rewrite map_app; simpl. rewrite distinct_app_one, H1, Hid; simpl.
    now rewrite next_id_fresh.
  - rewrite map_app; simpl. rewrite distinct_app_one, H2; simpl.
    rewrite has_name_keys in Hn. now rewrite Hn.
  - rewrite forallb_forall in *. intros m Hm. specialize (H4 m Hm).
    apply andb_true_iff in H4. destruct H4 as [Hu Hg].
    apply andb_true_iff. split; [exact Hu|].
    now apply has_group_more.
  - rewrite forallb_forall in *. intros a Ha.
    apply has_group_more. auto.
Qed.

Lemma inconsistent_add_group (t : tables) (g : Group) :
  has_name t (name g) = true ->
  consistent (with_groups t (t_group t ++ [g])) = false.
Proof.
  intros Hn. unfold consistent; simpl.
  rewrite (map_app name). simpl. rewrite distinct_app_one.
  rewrite has_name_keys in Hn. rewrite Hn; simpl.
  now rewrite !andb_false_r.
Qed.

Lemma filter_none {A} (p : A -> bool) (l : list A) :
  existsb p l = false -> filter p l = [].
Proof.
  induction l as [|x l IH]; simpl; [reflexivity|].
  destruct (p x); simpl; [discriminate | exact IH].
Qed.

Lemma Group_create_fresh (X : string) (s : session) :
  X <> "" -> clean s -> consistent (stored s) = true -> faults s = [] ->
  has_name (stored s) X = false ->
  let g := new_group (stored s) X in
  let t' := with_groups (stored s) (t_group (stored s) ++ [g]) in
  Group.create (Some X) "" None None false None s
  = (Return g, mkSession t' t' [] (signals s ++ [group_created g])).
Proof.
  intros HX Hcl Hc Hf Hn g t'.
  destruct s as [sto wk fl sg]; unfold clean in Hcl; simpl in *; subst.
  assert (T : Group.truthy (Some X) = true).
  { simpl. apply negb_true_iff. now apply String.eqb_neq. }
  unfold Group.create. rewrite T.
  unfold assert, try_except, bind, ret, add_group, get_work, put_work;
    simpl.
  rewrite commit_quiet by reflexivity. simpl.
  fold (new_group sto X). fold g. fold t'.
  unfold t'. rewrite (consistent_add_group sto g Hc eq_refl Hn).
  reflexivity.
Qed.

Lemma Group_create_duplicate (X : string) (s : session) :
  X <> "" -> clean s -> faults s = [] ->
  has_name (stored s) X = true ->
  Group.create (Some X) "" None None false None s
  = (Raise IntegrityError, s).
Proof.
  intros HX Hcl Hf Hn.
  destruct s as [sto wk fl sg]; unfold clean in Hcl; simpl in *; subst.
  assert (T : Group.truthy (Some X) = true).
  { simpl. apply negb_true_iff. now apply String.eqb_neq. }
  unfold Group.create. rewrite T.
  unfold assert, try_except, bind, ret, add_group, get_work, put_work;
    simpl.
  rewrite commit_quiet by reflexivity. simpl.
  fold (new_group sto X).
  rewrite (inconsistent_add_group sto (new_group sto X) Hn).
  reflexivity.
Qed.

(** C6. For a non-empty name X that no group bears, on a store that
    accepts statements: [create(name=X)] returns a group named X,
    [get_by_name X] then returns that group, and a second [create] with
    the name raises [IntegrityError] and leaves the session, the first
    group included, as it was. *)
Theorem create_then_get_by_name (X : string) (s : session) :
  X <> "" -> clean s -> consistent (stored s) = true -> faults s = [] ->
  has_name (stored s) X = false ->
  exists g s1,
    Group.create (Some X) "" None None false None s = (Return g, s1)
    /\ name g = X
    /\ clean s1
    /\ In g (t_group (stored s1))
    /\ Group.get_by_name X s1 = (Return (Some g), s1)
    /\ Group.create (Some X) "" None None false None s1
       = (Raise IntegrityError, s1).
Proof.
  intros HX Hcl Hc Hf Hn.
  eexists. eexists. split.
  { apply (Group_create_fresh X s HX Hcl Hc Hf Hn). }
  split; [reflexivity|]. split; [reflexivity|]. simpl.
  split; [apply in_or_app; right; now left|]. split.
  - unfold Group.get_by_name, try_except, bind.
    rewrite one_quiet by reflexivity. unfold Group.filter_by_name; simpl.
    rewrite filter_app, (filter_none _ _ Hn); simpl.
    rewrite String.eqb_refl. reflexivity.
  - apply Group_create_duplicate; try reflexivity; [assumption|].
    unfold has_name; simpl. rewrite existsb_app; simpl.
    rewrite String.eqb_refl. now rewrite orb_true_r.
Qed.

(** Run of C6 with the name "authors". *)
Lemma create_then_get_by_name_witness :
  exists g s1,
    Group.create (Some "authors") "" None None false None
                 (Ex.idle Ex.empty_groups) = (Return g, s1)
    /\ name g = "authors"
    /\ Group.get_by_name "authors" s1 = (Return (Some g), s1)
    /\ Group.create (Some "authors") "" None None false None s1
       = (Raise IntegrityError, s1).
Proof.
  destruct (create_then_get_by_name "authors" (Ex.idle Ex.empty_groups))
    as [g [s1 [H1 [H2 [_ [_ [H3 H4]]]]]]];
    try reflexivity; [discriminate|].
  exists g, s1. auto.
Defined.

(* ------------------------------------------------------------------ *)
(** ** Failures and rollback *)

Lemma delete_membership_run (m : Membership) (s : session) :
  delete_membership m s
  = if existsb (fun r => pair_eqb (member_key r) (member_key m))
               (t_member (work s))
    then (Return tt,
          mkSession (stored s)
            (with_members (work s)
               (filter (fun r => negb (pair_eqb (member_key r)
                                                (member_key m)))
                       (t_member (work s))))
            (faults s) (signals s))
    else (Raise InvalidRequestError, s).
Proof.
  unfold delete_membership, bind, get_work, put_work.
  destruct (existsb _ (t_member (work s))); reflexivity.
Qed.


Lemma quiet_same (s s' : session) : faults s' = faults s -> quiet_run s s'.
Proof. intros E. exists 0. now rewrite E. Qed.

Lemma quiet_trans (s s1 s2 : session) :
  quiet_run s s1 -> quiet_run s1 s2 -> quiet_run s s2.
Proof.
  intros [k H] [k' H']. exists (k + k').
  now rewrite H, H', repeat_app, <- app_assoc.
Qed.

Lemma quiet_failed (e : exn) (s s1 s2 : session) :
  quiet_run s s1 -> failed_with e s1 s2 -> failed_with e s s2.
Proof.
  intros [k H] [k' H']. exists (k + k').
  now rewrite H, H', repeat_app, <- app_assoc.
Qed.

Lemma quiet_cause (e : exn) (s s1 s2 : session) :
  quiet_run s s1 -> cause e s1 s2 -> cause e s s2.
Proof.
  intros Hq [Hf|[Ho Hq']].
  - left. exact (quiet_failed e s s1 s2 Hq Hf).
  - right. split; [assumption | exact (quiet_trans s s1 s2 Hq Hq')].
Qed.

(** One statement or signal consumed from the oracle. *)
Lemma oracle_step (s s' : session) :
  faults s' = tl (faults s) ->
  match faults s with
  | Some e :: _ => failed_with e s s'
  | _ => quiet_run s s'
  end.
Proof.
  intros E. destruct (faults s) as [|[e|] fl] eqn:F; simpl in E.
  - exists 0. now rewrite E.
  - exists 0. now rewrite E.
  - exists 1. now rewrite E.
Qed.

Lemma statement_pending : pending_only statement.
Proof.
  intros s. rewrite statement_run. simpl.
  split; [reflexivity|]. split; [reflexivity|].
  assert (H := oracle_step s (after_statement s) eq_refl).
  destruct (faults s) as [|[e|] fl]; [exact H | now left | exact H].
Qed.

(** A step that neither asks the store nor commits nor sends, and that
    raises errors of its own only. *)
Lemma local_pending {A} (m : M A) :
  (forall s, stored (snd (m s)) = stored s
             /\ signals (snd (m s)) = signals s
             /\ faults (snd (m s)) = faults s
             /\ match fst (m s) with
                | Return _ => True
                | Raise e => own_error e = true
                end) ->
  pending_only m.
Proof.
  intros H s. destruct (H s) as (H1 & H2 & H3 & H4).
  split; [assumption|]. split; [assumption|].
  destruct (fst (m s)).
  - now apply quiet_same.
  - right. split; [assumption | now apply quiet_same].
Qed.

Lemma pending_bind {A B} (m : M A) (k : A -> M B) :
  pending_only m -> (forall a, pending_only (k a)) ->
  pending_only (bind m k).
Proof.
  intros Hm Hk s. unfold bind. specialize (Hm s).
  destruct (m s) as [[a|e] s1]; simpl in *; [|exact Hm].
  destruct Hm as (H1 & H2 & H3). destruct (Hk a s1) as (K1 & K2 & K3).
  split; [congruence|]. split; [congruence|].
  destruct (fst (k a s1)).
  - exact (quiet_trans _ _ _ H3 K3).
  - exact (quiet_cause _ _ _ _ H3 K3).
Qed.

Lemma get_work_pending : pending_only get_work.
Proof. apply local_pending. intros s. simpl. auto. Qed.

Lemma put_work_pending (t : tables) : pending_only (put_work t).
Proof. apply local_pending. intros s. simpl. auto. Qed.

Lemma ret_pending {A} (a : A) : pending_only (ret a).
Proof. apply local_pending. intros s. simpl. auto. Qed.


Lemma add_group_pending (mk : nat -> Group) : pending_only (add_group mk).
Proof. apply local_pending. intros s. simpl. auto. Qed.

Lemma add_group_admin_pending (mk : nat -> GroupAdmin) :
  pending_only (add_group_admin mk).
Proof. apply local_pending. intros s. simpl. auto. Qed.




Lemma delete_group_pending (g : Group) : pending_only (delete_group g).
Proof.
  apply local_pending. intros s. unfold delete_group, bind, get_work.
  destruct (has_group (work s) (id g)); simpl; auto.
Qed.

Lemma delete_memberships_pending (q : Query Membership) :
  pending_only (delete_memberships q).
Proof.
  unfold delete_memberships.
  apply pending_bind; [apply statement_pending|]. intros _.
  apply pending_bind; [apply get_work_pending|]. intros t.
  apply put_work_pending.
Qed.

Lemma delete_group_admins_pending (q : Query GroupAdmin) :
  pending_only (delete_group_admins q).
Proof.
  unfold delete_group_admins.
  apply pending_bind; [apply statement_pending|]. intros _.
  apply pending_bind; [apply get_work_pending|]. intros t.
  apply put_work_pending.
Qed.

Lemma for_each_pending {A} (xs : list A) (body : A -> M unit) :
  (forall x, pending_only (body x)) -> pending_only (for_each xs body).
Proof.
  intros H. induction xs as [|x xs IH]; simpl.
  - apply ret_pending.
  - apply pending_bind; [apply H | intros _; exact IH].
Qed.
































(* ------------------------------------------------------------------ *)
(** ** Further properties: lookups on consistent tables *)

Lemma distinct_single {A K} (eqb : K -> K -> bool)
    (eqb_refl : forall k, eqb k k = true)
    (key : A -> K) (k : K) (l : list A) :
  distinct eqb (map key l) = true ->
  (forall x, In x l -> key x = k) ->
  l = [] \/ exists x, l = [x].
Proof.
  destruct l as [|a [|b l]]; [now left | right; now exists a |].
  simpl. intros H Hk. exfalso.
  rewrite (Hk a), (Hk b) in H by (simpl; auto).
  rewrite eqb_refl in H. discriminate.
Qed.

Lemma pair_eqb_refl (k : nat * nat) : pair_eqb k k = true.
Proof. now apply pair_eqb_eq. Qed.

Lemma member_rows_single (t : tables) (uid gid : nat) :
  consistent t = true ->
  filter (fun r => Nat.eqb (id_user r) uid && Nat.eqb (id_group r) gid)
         (t_member t) = []
  \/ exists x,
       filter (fun r => Nat.eqb (id_user r) uid && Nat.eqb (id_group r) gid)
              (t_member t) = [x].
Proof.
  intros Hc.
  apply (distinct_single pair_eqb pair_eqb_refl member_key (uid, gid)).
  - apply distinct_filter. apply consistent_parts in Hc. tauto.
  - intros x Hx. apply filter_In in Hx. destruct Hx as [_ Hx].
    apply andb_true_iff in Hx. destruct Hx as [Hu Hg].
    apply Nat.eqb_eq in Hu. apply Nat.eqb_eq in Hg.
    unfold member_key. now rewrite Hu, Hg.
Qed.

Lemma filter_nil_existsb {A} (p : A -> bool) (l : list A) :
  filter p l = [] -> existsb p l = false.
Proof.
  induction l as [|x l IH]; simpl; [reflexivity|].
  destruct (p x); [discriminate | exact IH].
Qed.

Lemma filter_cons_existsb {A} (p : A -> bool) (l : list A) x r :
  filter p l = x :: r -> existsb p l = true.
Proof.
  intros E. assert (H : In x (filter p l)) by (rewrite E; now left).
  apply filter_In in H. apply existsb_exists. exists x. exact H.
Qed.

Lemma is_member_quiet (self : Group) (user : principal)
    (with_pending : bool) (s : session) :
  faults s = [] -> consistent (work s) = true ->
  Group.is_member self user with_pending s
  = (Return (if with_pending
             then has_membership (work s) (get_id user) (id self)
             else has_active_membership (work s) (get_id user) (id self)),
     s).
Proof.
  intros Hf Hc. unfold Group.is_member, bind, Membership.get.
  rewrite guarded_one, (after_statement_quiet s Hf). unfold fails.
  rewrite Hf.
  assert (Hone := member_rows_single (work s) (get_id user) (id self) Hc).
  assert (Hp : has_membership (work s) (get_id user) (id self)
               = existsb (fun r => Nat.eqb (id_user r) (get_id user)
                                   && Nat.eqb (id_group r) (id self))
                         (t_member (work s))) by reflexivity.
  assert (Ha : has_active_membership (work s) (get_id user) (id self)
               = existsb (fun r => String.eqb (state r)
                                              MembershipState.ACTIVE)
                   (filter (fun r => Nat.eqb (id_user r) (get_id user)
                                     && Nat.eqb (id_group r) (id self))
                           (t_member (work s)))).
  { rewrite existsb_filter. reflexivity. }
  rewrite Hp, Ha.
  destruct Hone as [E|[x E]]; rewrite E; simpl.
  - rewrite (filter_nil_existsb _ _ E). now destruct with_pending.
  - rewrite (filter_cons_existsb _ _ _ _ E). rewrite orb_false_r.
    destruct with_pending; [reflexivity|].
    now destruct (String.eqb (state x) MembershipState.ACTIVE).
Qed.

Lemma is_admin_quiet (self : Group) (admin : principal) (s : session) :
  faults s = [] -> consistent (work s) = true ->
  Group.is_admin self admin s
  = (Return (registered (work s) (resolve_admin_type admin) (get_id admin)
                        (id self)), s).
Proof.
  intros Hf Hc. unfold Group.is_admin, bind, GroupAdmin.get.
  rewrite guarded_one, (after_statement_quiet s Hf). unfold fails.
  rewrite Hf. unfold registered.
  set (p := fun r => Nat.eqb (group_id r) (id self)
                     && Nat.eqb (admin_id r) (get_id admin)
                     && String.eqb (admin_type r)
                                   (resolve_admin_type admin)).
  assert (Hone : filter p (t_admin (work s)) = []
                 \/ exists x, filter p (t_admin (work s)) = [x]).
  { apply (distinct_single triple_eqb triple_eqb_refl admin_key
             (id self, resolve_admin_type admin, get_id admin)).
    - apply distinct_filter. apply consistent_parts in Hc. tauto.
    - intros x Hx. apply filter_In in Hx. destruct Hx as [_ Hx].
      unfold p in Hx. rewrite !andb_true_iff in Hx.
      destruct Hx as [[Hg Hi] Hty].
      apply Nat.eqb_eq in Hg. apply Nat.eqb_eq in Hi.
      apply String.eqb_eq in Hty. unfold admin_key.
      now rewrite Hg, Hi, Hty. }
  destruct Hone as [E|[x E]]; rewrite E; simpl.
  - now rewrite (filter_nil_existsb _ _ E).
  - now rewrite (filter_cons_existsb _ _ _ _ E).
Qed.

(** X1. On consistent tables whose membership rows carry valid state
    codes, and a store that accepts statements, [is_member(user)] is
    true exactly when the user has an ACTIVE row in the group, and
    [is_member(user, with_pending=True)] exactly when the user has a
    row in any state: a pending invitation or request does not make a
    member by default, and a row that is not ACTIVE is such an invitation
    or request. *)
Theorem is_member_counts_active_only (self : Group) (user : principal)
    (s : session) :
  faults s = [] -> consistent (work s) = true ->
  valid_states (work s) = true ->
  Group.is_member self user false s
  = (Return (has_active_membership (work s) (get_id user) (id self)), s)
  /\ Group.is_member self user true s
     = (Return (has_membership (work s) (get_id user) (id self)), s)
  /\ (has_active_membership (work s) (get_id user) (id self) = true ->
      has_membership (work s) (get_id user) (id self) = true)
  /\ (has_membership (work s) (get_id user) (id self) = true ->
      has_active_membership (work s) (get_id user) (id self) = false ->
      exists r, In r (t_member (work s))
                /\ id_user r = get_id user /\ id_group r = id self
                /\ (state r = MembershipState.PENDING_ADMIN
                    \/ state r = MembershipState.PENDING_USER)).
Proof.
  intros Hf Hc Hv. split; [|split; [|split]].
  - exact (is_member_quiet self user false s Hf Hc).
  - exact (is_member_quiet self user true s Hf Hc).
  - unfold has_active_membership, has_membership.
    apply existsb_weaken. intros m Hm.
    apply andb_true_iff in Hm. destruct Hm as [Hm _]. exact Hm.
  - intros Hm Ha. unfold has_membership in Hm.
    apply existsb_exists in Hm. destruct Hm as [r [Hr Hk]].
    apply pair_eqb_eq in Hk. unfold member_key in Hk.
    injection Hk as Hu Hg.
    exists r. repeat split; try assumption.
    unfold valid_states in Hv. rewrite forallb_forall in Hv.
    specialize (Hv r Hr). unfold MembershipState.validate in Hv.
    simpl in Hv. rewrite !orb_true_iff in Hv.
    destruct Hv as [Hv|[Hv|[Hv|Hv]]]; try discriminate Hv;
      apply String.eqb_eq in Hv; auto.
    exfalso.
    assert (T : has_active_membership (work s) (get_id user) (id self)
                = true).
    { unfold has_active_membership. apply existsb_exists. exists r.
      split; [assumption|].
      rewrite Hu, Hg, Hv, !Nat.eqb_refl. reflexivity. }
    congruence.
Qed.

(** Run of X1: [bob]'s request on [readers] awaits approval. *)
Lemma is_member_counts_active_only_witness :
  let s := Ex.idle Ex.delegated in
  Group.is_member Ex.readers (UserObj Ex.bob) false s = (Return false, s)
  /\ Group.is_member Ex.readers (UserObj Ex.bob) true s = (Return true, s).
Proof.
  intros s.
  destruct (is_member_counts_active_only Ex.readers (UserObj Ex.bob) s
              eq_refl eq_refl eq_refl) as (H1 & H2 & _).
  split; [exact H1 | exact H2].
Defined.

(** X2. [can_see_members] follows the privacy policy.  PUBLIC answers
    [True] without asking the store.  On consistent tables MEMBERS
    answers whether the user has an ACTIVE membership and ADMINS whether
    the user is registered as an admin of the group.  For any other
    policy code the method falls through and returns [None]. *)
Theorem can_see_members_matrix (self : Group) (user : principal)
    (s : session) :
  (privacy_policy self = PrivacyPolicy.PUBLIC ->
   Group.can_see_members self user s = (Return (Some true), s))
  /\ (PrivacyPolicy.validate (privacy_policy self) = false ->
      Group.can_see_members self user s = (Return None, s))
  /\ (faults s = [] -> consistent (work s) = true ->
      (privacy_policy self = PrivacyPolicy.MEMBERS ->
       Group.can_see_members self user s
       = (Return (Some (has_active_membership (work s) (get_id user)
                                              (id self))), s))
      /\ (privacy_policy self = PrivacyPolicy.ADMINS ->
          Group.can_see_members self user s
          = (Return (Some (registered (work s) (resolve_admin_type user)
                                      (get_id user) (id self))), s))).
Proof.
  split; [|split].
  - intros Hp. unfold Group.can_see_members. now rewrite Hp.
  - unfold PrivacyPolicy.validate, Group.can_see_members; simpl.
    rewrite !orb_false_iff. intros (H1 & H2 & H3 & _).
    now rewrite H1, H2, H3.
  - intros Hf Hc. split; intros Hp; unfold Group.can_see_members, bind;
      rewrite Hp; simpl.
    + now rewrite (is_member_quiet self user false s Hf Hc).
    + now rewrite (is_admin_quiet self user s Hf Hc).
Qed.

(** Run of X2 on [board], whose members only its admins may see. *)
Lemma can_see_members_matrix_witness :
  let s := Ex.idle Ex.administered in
  Group.can_see_members Ex.board (UserObj Ex.alice) s
  = (Return (Some true), s)
  /\ Group.can_see_members Ex.board (UserObj Ex.bob) s
     = (Return (Some false), s).
Proof.
  intros s. split.
  - exact (proj2 (proj2 (proj2 (can_see_members_matrix Ex.board
                                  (UserObj Ex.alice) s))
                   eq_refl eq_refl) eq_refl).
  - exact (proj2 (proj2 (proj2 (can_see_members_matrix Ex.board
                                  (UserObj Ex.bob) s))
                   eq_refl eq_refl) eq_refl).
Defined.

(* ------------------------------------------------------------------ *)
(** ** Further properties: [Group.get_by_name] *)

(** X3. [get_by_name] turns a missing row, and nothing else, into [None]:
    a failure of the store reaches the caller, unlike in
    [Membership.get].  On consistent tables a store that answers gives
    [Some g] exactly for the stored group [g] bearing the name. *)
Theorem get_by_name_not_found_only (n : string) (s : session) :
  Group.get_by_name n s
  = (match faults s with
     | Some e :: _ => if is_NoResultFound e then Return None else Raise e
     | _ => match Group.filter_by_name n (work s) with
            | [] => Return None
            | [g] => Return (Some g)
            | _ => Raise MultipleResultsFound
            end
     end, after_statement s)
  /\ (consistent (work s) = true -> fails s = false ->
      exists r,
        Group.get_by_name n s = (Return r, after_statement s)
        /\ forall g, r = Some g <-> In g (t_group (work s)) /\ name g = n).
Proof.
  assert (Hrun : Group.get_by_name n s
                 = (match faults s with
                    | Some e :: _ =>
                        if is_NoResultFound e then Return None else Raise e
                    | _ => match Group.filter_by_name n (work s) with
                           | [] => Return None
                           | [g] => Return (Some g)
                           | _ => Raise MultipleResultsFound
                           end
                    end, after_statement s)).
  { unfold Group.get_by_name, try_except, one, bind.
    rewrite statement_run. unfold get_work.
    destruct (faults s) as [|[e|] fl]; simpl;
      try (destruct e; reflexivity);
      destruct (Group.filter_by_name n (work s)) as [|x [|y l]];
      reflexivity. }
  split; [exact Hrun|].
  intros Hc Hq. rewrite Hrun.
  assert (Hin : forall g, In g (Group.filter_by_name n (work s))
                          <-> In g (t_group (work s)) /\ name g = n).
  { intros g. unfold Group.filter_by_name.
    now rewrite filter_In, String.eqb_eq. }
  assert (Hone : Group.filter_by_name n (work s) = []
                 \/ exists x, Group.filter_by_name n (work s) = [x]).
  { apply (distinct_single String.eqb String.eqb_refl name n).
    - apply distinct_filter. apply consistent_parts in Hc. tauto.
    - intros x Hx. now apply Hin in Hx. }
  unfold fails in Hq.
  assert (Hnf : match faults s with
                | Some e :: _ =>
                    if is_NoResultFound e then Return None else Raise e
                | _ => match Group.filter_by_name n (work s) with
                       | [] => Return None
                       | [g] => Return (Some g)
                       | _ => Raise MultipleResultsFound
                       end
                end
                = match Group.filter_by_name n (work s) with
                  | [] => Return None
                  | [g] => Return (Some g)
                  | _ => Raise MultipleResultsFound
                  end).
  { destruct (faults s) as [|[e|] fl]; [reflexivity | discriminate
                                       | reflexivity]. }
  rewrite Hnf.
  destruct Hone as [E|[x E]]; rewrite E.
  - exists None. split; [reflexivity|]. intros g. split; [discriminate|].
    intros Hg. apply Hin in Hg. rewrite E in Hg. elim Hg.
  - exists (Some x). split; [reflexivity|]. intros g. split.
    + intros Hg. inversion Hg; subst. apply Hin. rewrite E. now left.
    + intros Hg. apply Hin in Hg. rewrite E in Hg.
      destruct Hg as [->|[]]. reflexivity.
Qed.

(** Run of X3: "editors" is found and "nobody" is not; with the store
    down the lookup raises. *)
Lemma get_by_name_not_found_only_witness :
  let s := Ex.idle Ex.empty_groups in
  (exists r, Group.get_by_name "editors" s = (Return r, s)
             /\ r = Some Ex.editors)
  /\ fst (Group.get_by_name "editors"
            (mkSession Ex.empty_groups Ex.empty_groups
                       [Some OperationalError] []))
     = Raise OperationalError.
Proof.
  intros s. split.
  - destruct (proj2 (get_by_name_not_found_only "editors" s)
                eq_refl eq_refl) as [r [H1 H2]].
    exists r. split; [exact H1|]. apply H2. simpl. auto.
  - reflexivity.
Defined.

(* ------------------------------------------------------------------ *)
(** ** Further properties: the life of a membership *)

Lemma has_membership_inserted (t : tables) (m : Membership) :
  has_membership (inserted t m) (id_user m) (id_group m) = true.
Proof.
  unfold has_membership, inserted; simpl. rewrite existsb_app; simpl.
  change (id_user m, id_group m) with (member_key m).
  now rewrite pair_eqb_refl, orb_true_r.
Qed.

Lemma no_membership_no_active (t : tables) (uid gid : nat) :
  has_membership t uid gid = false ->
  has_active_membership t uid gid = false.
Proof.
  intros H. destruct (has_active_membership t uid gid) eqn:E; [|reflexivity].
  rewrite <- H. symmetry. revert E.
  unfold has_active_membership, has_membership.
  apply existsb_weaken. intros m Hm.
  apply andb_true_iff in Hm. destruct Hm as [Hm _]. exact Hm.
Qed.

Lemma consistent_filter_members (t : tables) (p : Membership -> bool) :
  consistent t = true ->
  consistent (with_members t (filter p (t_member t))) = true.
Proof.
  intros Hc. apply consistent_parts in Hc.
  destruct Hc as (H1 & H2 & H3 & H4 & H5 & H6 & H7).
  apply consistent_parts. simpl. repeat split; try assumption.
  - now apply distinct_filter.
  - apply forallb_filter_weaken with (2 := H4). intros m _ Hm. exact Hm.
Qed.

Lemma with_members_same (t : tables) : with_members t (t_member t) = t.
Proof. destruct t; reflexivity. Qed.

Lemma filter_all {A} (p : A -> bool) (l : list A) :
  existsb (fun x => negb (p x)) l = false -> filter p l = l.
Proof.
  induction l as [|x l IH]; simpl; [reflexivity|].
  destruct (p x); simpl; [intros H; now rewrite IH | discriminate].
Qed.

Lemma removed_absent (t : tables) (uid gid : nat) :
  has_membership t uid gid = false -> removed t uid gid = t.
Proof.
  intros H. unfold removed. rewrite filter_all; [apply with_members_same|].
  rewrite <- H. unfold has_membership.
  induction (t_member t) as [|r l IH]; simpl; [reflexivity|].
  rewrite IH, negb_involutive. f_equal. unfold pair_eqb; simpl.
  apply andb_comm.
Qed.

Lemma get_after_removed (group : Group) (user : principal) (t : tables)
    (sg : list signal) :
  let s := mkSession (removed t (get_id user) (id group))
                     (removed t (get_id user) (id group)) [] sg in
  Membership.get group user s = (Return None, s).
Proof.
  intros s. unfold Membership.get. rewrite guarded_one.
  unfold fails, s; simpl. rewrite filter_filter.
  rewrite filter_none; [reflexivity|].
  destruct (existsb _ (t_member t)) eqn:E; [|reflexivity].
  apply existsb_exists in E. destruct E as [m [_ Hm]].
  destruct (Nat.eqb (id_user m) (get_id user)),
           (Nat.eqb (id_group m) (id group)); discriminate.
Qed.

Lemma Membership_delete_quiet (group : Group) (user : principal)
    (s : session) :
  clean s -> consistent (stored s) = true -> faults s = [] ->
  let t' := removed (stored s) (get_id user) (id group) in
  Membership.delete group user s
  = (Return tt, mkSession t' t' [] (signals s)).
Proof.
  intros Hcl Hc Hf t'.
  destruct s as [sto wk fl sg]; unfold clean in Hcl; simpl in *; subst.
  unfold Membership.delete, try_except, bind, delete_memberships, get_work,
    put_work, statement; simpl.
  rewrite (bulk_delete_filter _ membership_eqb_eq).
  rewrite commit_quiet by reflexivity. simpl.
  fold (removed sto (get_id user) (id group)). fold t'.
  unfold t', removed. now rewrite (consistent_filter_members _ _ Hc).
Qed.

Lemma Membership_reject_quiet (self : Membership) (s : session) :
  clean s -> consistent (stored s) = true -> faults s = [] ->
  In self (t_member (stored s)) ->
  let t' := removed (stored s) (id_user self) (id_group self) in
  Membership.reject self s = (Return tt, mkSession t' t' [] (signals s)).
Proof.
  intros Hcl Hc Hf Hin t'.
  destruct s as [sto wk fl sg]; unfold clean in Hcl; simpl in *; subst.
  assert (Hex : existsb (fun r => pair_eqb (member_key r) (member_key self))
                        (t_member sto) = true).
  { apply existsb_exists. exists self. split; [assumption|].
    apply pair_eqb_refl. }
  unfold Membership.reject, try_except, bind.
  rewrite delete_membership_run. cbn [work stored faults signals].
  rewrite Hex. rewrite commit_quiet by reflexivity.
  cbn [work stored faults signals].
  assert (E : with_members sto
                (filter (fun r => negb (pair_eqb (member_key r)
                                                 (member_key self)))
                        (t_member sto)) = t').
  { unfold t', removed. f_equal. apply filter_same. intros r _.
    f_equal. unfold pair_eqb; simpl. apply andb_comm. }
  rewrite E. unfold t', removed.
  now rewrite (consistent_filter_members _ _ Hc).
Qed.

(** X4. A pair of user and group has at most one membership: once
    [Membership.create] has inserted a row, a second call for the pair,
    in whatever state, raises [IntegrityError] and leaves the session and
    the first row as they were. *)
Theorem membership_pair_is_unique (group : Group) (user : principal)
    (st : string) (s : session) :
  clean s -> consistent (stored s) = true -> faults s = [] ->
  has_user (stored s) (get_id user) = true ->
  has_group (stored s) (id group) = true ->
  has_membership (stored s) (get_id user) (id group) = false ->
  exists m s1,
    Membership.create group user st s = (Return m, s1)
    /\ In m (t_member (stored s1))
    /\ forall st', Membership.create group user st' s1
                   = (Raise IntegrityError, s1).
Proof.
  intros Hcl Hc Hf Hu Hg Hn.
  eexists. eexists. split.
  { apply (Membership_create_fresh group user st s Hcl Hc Hf Hu Hg Hn). }
  simpl. split; [apply in_or_app; right; now left|].
  intros st'. apply Membership_create_duplicate; try reflexivity.
  apply (has_membership_inserted (stored s)
           (mkMembership (get_id user) (id group) st)).
Qed.

(** Run of X4: [alice] joins [readers] once. *)
Lemma membership_pair_is_unique_witness :
  exists m s1,
    Membership.create Ex.readers (UserObj Ex.alice) MembershipState.ACTIVE
                      (Ex.idle Ex.empty_groups) = (Return m, s1)
    /\ Membership.create Ex.readers (UserObj Ex.alice)
                         MembershipState.PENDING_USER s1
       = (Raise IntegrityError, s1).
Proof.
  destruct (membership_pair_is_unique Ex.readers (UserObj Ex.alice)
              MembershipState.ACTIVE (Ex.idle Ex.empty_groups)
              eq_refl eq_refl eq_refl eq_refl eq_refl eq_refl)
    as [m [s1 [H1 [_ H2]]]].
  exists m, s1. split; [exact H1 | apply H2].
Defined.

(** X5. An invitation does not make a member until it is accepted: after
    [invite] the user is a member only when pending rows are counted,
    and after [accept] on the invitation [is_member] is true. *)
Theorem invitation_needs_acceptance (self : Group) (user : principal)
    (s : session) :
  clean s -> consistent (stored s) = true -> faults s = [] ->
  has_user (stored s) (get_id user) = true ->
  has_group (stored s) (id self) = true ->
  has_membership (stored s) (get_id user) (id self) = false ->
  let m := mkMembership (get_id user) (id self)
                        MembershipState.PENDING_USER in
  exists s1 s2,
    Group.invite self user None s = (Return (Some m), s1)
    /\ Group.is_member self user false s1 = (Return false, s1)
    /\ Group.is_member self user true s1 = (Return true, s1)
    /\ Membership.accept m s1 = (Return (activated m), s2)
    /\ Group.is_member self user false s2 = (Return true, s2).
Proof.
  intros Hcl Hc Hf Hu Hg Hn m.
  assert (Hc1 : consistent (inserted (stored s) m) = true)
    by exact (consistent_add_membership (stored s) m Hc Hu Hg Hn).
  eexists. eexists. split.
  { unfold Group.invite, Group.add_member, bind; simpl.
    rewrite (Membership_create_fresh self user MembershipState.PENDING_USER
               s Hcl Hc Hf Hu Hg Hn).
    reflexivity. }
  split; [|split; [|split]].
  - rewrite is_member_quiet by (try reflexivity; exact Hc1). simpl work.
    f_equal. f_equal.
    unfold has_active_membership, inserted; simpl.
    rewrite existsb_app; simpl.
    apply no_membership_no_active in Hn.
    unfold has_active_membership in Hn. rewrite Hn.
    now rewrite !Nat.eqb_refl.
  - rewrite is_member_quiet by (try reflexivity; exact Hc1). simpl work.
    f_equal. f_equal. apply (has_membership_inserted (stored s) m).
  - apply accept_quiet; [reflexivity | exact Hc1].
  - rewrite is_member_quiet; try reflexivity.
    + simpl work. f_equal. f_equal.
      unfold has_active_membership; simpl. apply existsb_exists.
      exists (activated m). split.
      * apply in_map_iff. exists m. split.
        -- unfold replace_membership.
           assert (R : pair_eqb (member_key m) (member_key (activated m))
                       = true) by now apply pair_eqb_eq.
           now rewrite R.
        -- apply in_or_app. right. now left.
      * simpl. now rewrite !Nat.eqb_refl.
    + simpl work. now rewrite consistent_set_membership.
Qed.

(** Run of X5: [bob] is invited to [board] and accepts. *)
Lemma invitation_needs_acceptance_witness :
  exists s1 s2,
    Group.invite Ex.board (UserObj Ex.bob) None (Ex.idle Ex.empty_groups)
    = (Return (Some (mkMembership 2 3 MembershipState.PENDING_USER)), s1)
    /\ Group.is_member Ex.board (UserObj Ex.bob) false s1
       = (Return false, s1)
    /\ Membership.accept (mkMembership 2 3 MembershipState.PENDING_USER) s1
       = (Return (mkMembership 2 3 MembershipState.ACTIVE), s2)
    /\ Group.is_member Ex.board (UserObj Ex.bob) false s2
       = (Return true, s2).
Proof.
  destruct (invitation_needs_acceptance Ex.board (UserObj Ex.bob)
              (Ex.idle Ex.empty_groups)
              eq_refl eq_refl eq_refl eq_refl eq_refl eq_refl)
    as [s1 [s2 (H1 & H2 & _ & H3 & H4)]].
  exists s1, s2. auto.
Defined.

Lemma removed_rows (t : tables) (uid gid : nat) (r : Membership) :
  In r (t_member (removed t uid gid))
  <-> In r (t_member t) /\ member_key r <> (uid, gid).
Proof.
  unfold removed, member_key; simpl.
  rewrite filter_In, negb_true_iff, andb_false_iff, !Nat.eqb_neq.
  split.
  - intros [Hin H]. split; [assumption|]. intros E. inversion E. tauto.
  - intros [Hin H]. split; [assumption|].
    destruct (Nat.eq_dec (id_group r) gid) as [Eg|Eg]; [|now left].
    right. intros Eu. apply H. now rewrite Eg, Eu.
Qed.

(** X6. [reject] deletes the row of the membership and nothing else:
    afterwards [Membership.get] for its group and user returns [None],
    and every other row is still stored. *)
Theorem reject_removes_row (self : Membership) (s : session) :
  clean s -> consistent (stored s) = true -> faults s = [] ->
  In self (t_member (stored s)) ->
  exists s',
    Membership.reject self s = (Return tt, s')
    /\ clean s'
    /\ (forall group user,
          id group = id_group self -> get_id user = id_user self ->
          Membership.get group user s' = (Return None, s'))
    /\ (forall r, In r (t_member (stored s'))
                  <-> In r (t_member (stored s))
                      /\ member_key r <> member_key self)
    /\ t_group (stored s') = t_group (stored s)
    /\ t_admin (stored s') = t_admin (stored s).
Proof.
  intros Hcl Hc Hf Hin. eexists. split.
  { apply (Membership_reject_quiet self s Hcl Hc Hf Hin). }
  split; [reflexivity|]. split; [|split; [|split; reflexivity]].
  - intros group user Eg Eu. rewrite <- Eg, <- Eu.
    apply get_after_removed.
  - intros r. simpl. apply removed_rows.
Qed.

(** Run of X6: [bob]'s request on [readers] is rejected. *)
Lemma reject_removes_row_witness :
  exists s',
    Membership.reject (mkMembership 2 1 MembershipState.PENDING_ADMIN)
                      (Ex.idle Ex.delegated) = (Return tt, s')
    /\ Membership.get Ex.readers (UserObj Ex.bob) s' = (Return None, s').
Proof.
  destruct (reject_removes_row
              (mkMembership 2 1 MembershipState.PENDING_ADMIN)
              (Ex.idle Ex.delegated) eq_refl eq_refl eq_refl
              (or_intror (or_introl eq_refl)))
    as [s' (H1 & _ & H2 & _)].
  exists s'. split; [exact H1|].
  apply H2; reflexivity.
Defined.

(** X7. [remove_member] removes the membership of the user whatever its
    state, after which [Membership.get] returns [None]; for a user who
    has no membership it succeeds and changes nothing. *)
Theorem remove_member_any_state (self : Group) (user : principal)
    (s : session) :
  clean s -> consistent (stored s) = true -> faults s = [] ->
  exists s',
    Group.remove_member self user s = (Return tt, s')
    /\ clean s'
    /\ Membership.get self user s' = (Return None, s')
    /\ (forall r, In r (t_member (stored s'))
                  <-> In r (t_member (stored s))
                      /\ member_key r <> (get_id user, id self))
    /\ (has_membership (stored s) (get_id user) (id self) = false ->
        s' = s).
Proof.
  intros Hcl Hc Hf. eexists. split.
  { unfold Group.remove_member.
    apply (Membership_delete_quiet self user s Hcl Hc Hf). }
  split; [reflexivity|]. split; [apply get_after_removed|]. split.
  - intros r. simpl. apply removed_rows.
  - intros Hn. rewrite (removed_absent _ _ _ Hn).
    destruct s as [sto wk fl sg]; unfold clean in Hcl; simpl in *.
    now subst.
Qed.

(** Run of X7: [bob] withdraws his pending request, and [alice], who is
    not in [readers], leaves it without effect. *)
Lemma remove_member_any_state_witness :
  let s := Ex.idle Ex.delegated in
  (exists s',
     Group.remove_member Ex.readers (UserObj Ex.bob) s = (Return tt, s')
     /\ t_member (stored s') = [mkMembership 1 2 MembershipState.ACTIVE])
  /\ Group.remove_member Ex.readers (current_user 1) s = (Return tt, s).
Proof.
  intros s. split.
  - destruct (remove_member_any_state Ex.readers (UserObj Ex.bob) s
                eq_refl eq_refl eq_refl) as [s' (H1 & _)].
    exists s'. split; [exact H1|].
    assert (E : s' = snd (Group.remove_member Ex.readers (UserObj Ex.bob) s))
      by now rewrite H1.
    subst s'. reflexivity.
  - destruct (remove_member_any_state Ex.readers (current_user 1) s
                eq_refl eq_refl eq_refl) as [s' (H1 & _ & _ & _ & H2)].
    rewrite H1. now rewrite (H2 eq_refl).
Defined.

(* ------------------------------------------------------------------ *)
(** ** Further properties: [invite_by_emails] *)

(** X8. [invite_by_emails] never raises: whatever the emails and the
    state of the store, it returns a membership or [None].  For an empty
    list it returns [None] without asking the store. *)
Theorem invite_by_emails_never_raises (self : Group) (emails : list string)
    (s : session) :
  (exists r s', Group.invite_by_emails self emails s = (Return r, s'))
  /\ Group.invite_by_emails self [] s = (Return None, s).
Proof.
  split; [|reflexivity].
  destruct emails as [|e rest]; [eexists; eexists; reflexivity|].
  rewrite invite_by_emails_first_only.
  unfold Group.invite_by_emails, bind; simpl. unfold bind, try_except.
  destruct (one (User.query_by_email e) s) as [[u|x] s1]; simpl;
    [|eexists; eexists; reflexivity].
  destruct (Group.invite self (UserObj u) None s1) as [[m|x] s2];
    eexists; eexists; reflexivity.
Qed.

(** X9. Inviting by email a user who already has a membership in the
    group is dropped silently: the [IntegrityError] of the insertion is
    caught, the call returns [None] and the session is as before. *)
Theorem invite_by_emails_existing_member (self : Group) (e : string)
    (rest : list string) (u : User) (s : session) :
  clean s -> faults s = [] ->
  User.query_by_email e (stored s) = [u] ->
  has_membership (stored s) (user_id u) (id self) = true ->
  Group.invite_by_emails self (e :: rest) s = (Return None, s).
Proof.
  intros Hcl Hf Hu Hn. rewrite invite_by_emails_first_only.
  unfold Group.invite_by_emails, bind; simpl. unfold bind, try_except.
  rewrite one_quiet by assumption. rewrite Hcl, Hu.
  unfold Group.invite, Group.add_member, bind; simpl.
  rewrite (Membership_create_duplicate self (UserObj u)
             MembershipState.PENDING_USER s Hcl Hf Hn).
  reflexivity.
Qed.

(** Run of X9: [alice] is already an active member of [editors]. *)
Lemma invite_by_emails_existing_member_witness :
  Group.invite_by_emails Ex.editors
    ["alice@example.org"; "bob@example.org"] (Ex.idle Ex.delegated)
  = (Return None, Ex.idle Ex.delegated).
Proof.
  apply (invite_by_emails_existing_member Ex.editors "alice@example.org"
           ["bob@example.org"] Ex.alice (Ex.idle Ex.delegated));
    reflexivity.
Defined.

(* ------------------------------------------------------------------ *)
(** ** Further properties: [Group.update] *)

Lemma distinct_NoDup {K} (eqb : K -> K -> bool)
    (eqb_eq : forall a b, eqb a b = true <-> a = b) (ks : list K) :
  distinct eqb ks = true <-> NoDup ks.
Proof.
  induction ks as [|k ks IH]; simpl.
  - split; [constructor | reflexivity].
  - rewrite andb_true_iff, negb_true_iff, IH, NoDup_cons_iff.
    rewrite <- not_true_iff_false, (existsb_eqb_In _ _ eqb_eq). tauto.
Qed.

Lemma NoDup_map_inj {A K} (key : A -> K) (l : list A) (a b : A) :
  NoDup (map key l) -> In a l -> In b l -> key a = key b -> a = b.
Proof.
  induction l as [|x l IH]; simpl; [tauto|].
  rewrite NoDup_cons_iff. intros [Hx Hl] Ha Hb E.
  destruct Ha as [<-|Ha], Hb as [<-|Hb]; auto.
  - elim Hx. rewrite E. now apply in_map.
  - elim Hx. rewrite <- E. now apply in_map.
Qed.

Lemma replace_group_id (g r : Group) : id (replace_group g r) = id r.
Proof.
  unfold replace_group. destruct (Nat.eqb (id r) (id g)) eqn:E;
    [|reflexivity].
  apply Nat.eqb_eq in E. now symmetry.
Qed.

Lemma replace_group_ids (g : Group) (l : list Group) :
  map id (map (replace_group g) l) = map id l.
Proof. rewrite map_map. apply map_ext. apply replace_group_id. Qed.

Lemma replace_group_absent (g : Group) (l : list Group) :
  ~ In (id g) (map id l) -> map (replace_group g) l = l.
Proof.
  intros H. rewrite <- (map_id l) at 2. apply map_ext_in. intros x Hx.
  unfold replace_group. destruct (Nat.eqb (id x) (id g)) eqn:E;
    [|reflexivity].
  apply Nat.eqb_eq in E. elim H. rewrite <- E. now apply in_map.
Qed.

Lemma replaced_group_rows (g : Group) (l : list Group) (y : Group) :
  In y (map (replace_group g) l) -> y = g \/ (In y l /\ id y <> id g).
Proof.
  intros H. apply in_map_iff in H. destruct H as [x [E Hx]].
  unfold replace_group in E. destruct (Nat.eqb (id x) (id g)) eqn:Eid.
  - left. now symmetry.
  - right. subst y. split; [assumption | now apply Nat.eqb_neq].
Qed.

(** Renaming one row to its own name or to a name nobody bears keeps the
    names distinct. *)
Lemma replace_group_names (self g : Group) (l : list Group) :
  NoDup (map id l) -> NoDup (map name l) ->
  In self l -> id g = id self ->
  (name g = name self \/ ~ In (name g) (map name l)) ->
  NoDup (map name (map (replace_group g) l)).
Proof.
  intros Hid Hnm Hin Eid [En|Hfresh].
  - assert (E : map name (map (replace_group g) l) = map name l).
    { rewrite map_map. apply map_ext_in. intros x Hx. unfold replace_group.
      destruct (Nat.eqb (id x) (id g)) eqn:E; [|reflexivity].
      apply Nat.eqb_eq in E. rewrite Eid in E.
      assert (x = self) by exact (NoDup_map_inj id l x self Hid Hx Hin E).
      now subst x. }
    now rewrite E.
  - clear Hin Eid self. induction l as [|x l IH]; simpl; [constructor|].
    simpl in Hid, Hnm, Hfresh.
    rewrite NoDup_cons_iff in Hid, Hnm.
    destruct Hid as [Hx Hid], Hnm as [Hnx Hnm].
    unfold replace_group at 1. destruct (Nat.eqb (id x) (id g)) eqn:E.
    + apply Nat.eqb_eq in E. rewrite replace_group_absent
        by now rewrite <- E.
      constructor; [tauto | assumption].
    + constructor; [|apply IH; tauto].
      intros H. apply in_map_iff in H. destruct H as [y [Ey Hy]].
      apply replaced_group_rows in Hy. destruct Hy as [->|[Hy _]].
      * apply Hfresh. now left.
      * apply Hnx. rewrite <- Ey. now apply in_map.
Qed.

Lemma existsb_map_comp {A B} (f : B -> bool) (h : A -> B) (l : list A) :
  existsb f (map h l) = existsb (fun x => f (h x)) l.
Proof.
  induction l as [|x l IH]; simpl; [reflexivity | now rewrite IH].
Qed.

Lemma has_group_replaced (t : tables) (g : Group) (x : nat) :
  has_group (with_groups t (map (replace_group g) (t_group t))) x
  = has_group t x.
Proof.
  unfold has_group; simpl. rewrite existsb_map_comp.
  induction (t_group t) as [|r l IH]; simpl; [reflexivity|].
  now rewrite replace_group_id, IH.
Qed.

Lemma consistent_set_group (t : tables) (self g : Group) :
  consistent t = true -> In self (t_group t) -> id g = id self ->
  (name g = name self \/ has_name t (name g) = false) ->
  consistent (with_groups t (map (replace_group g) (t_group t))) = true.
Proof.
  intros Hc Hin Eid Hn. apply consistent_parts in Hc.
  destruct Hc as (H1 & H2 & H3 & H4 & H5 & H6 & H7).
  apply consistent_parts. simpl. repeat split; try assumption.
  - now rewrite replace_group_ids.
  - apply (distinct_NoDup String.eqb String.eqb_eq).
    apply (replace_group_names self g); try assumption.
    + now apply (distinct_NoDup Nat.eqb Nat.eqb_eq).
    + now apply (distinct_NoDup String.eqb String.eqb_eq).
    + destruct Hn as [Hn|Hn]; [now left | right].
      rewrite has_name_keys in Hn. intros Hi.
      assert (T : existsb (fun k => String.eqb k (name g))
                          (map name (t_group t)) = true).
      { apply existsb_exists. exists (name g). split; [assumption|].
        apply String.eqb_refl. }
      congruence.
  - erewrite forallb_same; [exact H4|]. intros m _.
    now rewrite has_group_replaced.
  - erewrite forallb_same; [exact H7|]. intros a _.
    now rewrite has_group_replaced.
Qed.

Lemma update_object (self : Group) (n d pp sp : option string)
    (im : option bool) :
  Group.update self n d pp sp im
  = (set_group (updated self n d pp sp im) ;;;
     commit ;;;
     ret (updated self n d pp sp im)).
Proof.
  unfold Group.update, updated.
  destruct n, d, pp as [p|], sp as [q|], im; simpl;
    try destruct (PrivacyPolicy.validate p);
    try destruct (SubscriptionPolicy.validate q);
    destruct self; reflexivity.
Qed.

Lemma get_by_name_found (g : Group) (s : session) :
  faults s = [] -> consistent (work s) = true ->
  In g (t_group (work s)) ->
  Group.get_by_name (name g) s = (Return (Some g), s).
Proof.
  intros Hf Hc Hin. unfold Group.get_by_name, try_except, bind.
  rewrite one_quiet by assumption.
  assert (Hg : In g (Group.filter_by_name (name g) (work s))).
  { unfold Group.filter_by_name. apply filter_In. split; [assumption|].
    apply String.eqb_refl. }
  assert (Hone : Group.filter_by_name (name g) (work s) = []
                 \/ exists x, Group.filter_by_name (name g) (work s) = [x]).
  { apply (distinct_single String.eqb String.eqb_refl name (name g)).
    - apply distinct_filter. apply consistent_parts in Hc. tauto.
    - intros x Hx. unfold Group.filter_by_name in Hx.
      apply filter_In in Hx. now apply String.eqb_eq. }
  destruct Hone as [E|[x E]]; rewrite E in *; [elim Hg|].
  destruct Hg as [->|[]]. reflexivity.
Qed.

Lemma update_returns (self : Group) (n d pp sp : option string)
    (im : option bool) (s : session) (g' : Group) (s' : session) :
  Group.update self n d pp sp im s = (Return g', s') ->
  g' = updated self n d pp sp im.
Proof.
  rewrite update_object. unfold bind, ret.
  destruct (set_group _ s) as [[u|x] s1]; [|discriminate].
  destruct (commit s1) as [[u'|x] s2]; [|discriminate].
  intros E. inversion E. reflexivity.
Qed.

Lemma Group_update_quiet (self : Group) (n d pp sp : option string)
    (im : option bool) (s : session) :
  clean s -> consistent (stored s) = true -> faults s = [] ->
  In self (t_group (stored s)) ->
  (forall v, n = Some v -> v = name self \/ has_name (stored s) v = false) ->
  let g := updated self n d pp sp im in
  let t' := with_groups (stored s)
              (map (replace_group g) (t_group (stored s))) in
  Group.update self n d pp sp im s
  = (Return g, mkSession t' t' [] (signals s))
  /\ consistent t' = true.
Proof.
  intros Hcl Hc Hf Hin Hn g t'.
  assert (Hc' : consistent t' = true).
  { apply (consistent_set_group (stored s) self g Hc Hin eq_refl).
    unfold g, updated; simpl. destruct n as [v|]; [|now left].
    exact (Hn v eq_refl). }
  split; [|exact Hc'].
  destruct s as [sto wk fl sg]; unfold clean in Hcl; simpl in *; subst.
  rewrite update_object. fold g.
  unfold set_group, bind, get_work, put_work, ret;
    cbn [work stored faults signals].
  rewrite commit_quiet by reflexivity. cbn [work stored faults signals].
  fold t'. now rewrite Hc'.
Qed.

(** X10. [update] assigns the arguments that are given and commits: on a
    store that accepts statements, for a stored group and a new name that
    is its own or that no group bears, it returns the group with the
    given attributes, the stored group rows are exactly that group and
    the former rows of the other groups, no user, membership or admin
    row changes, [get_by_name] finds it under its name, and after a
    change of name the old name is not found any more. *)
Theorem update_applies_and_renames (self : Group) (n d pp sp : option string)
    (im : option bool) (s : session) :
  clean s -> consistent (stored s) = true -> faults s = [] ->
  In self (t_group (stored s)) ->
  (forall v, n = Some v -> v = name self \/ has_name (stored s) v = false) ->
  let g := updated self n d pp sp im in
  exists s',
    Group.update self n d pp sp im s = (Return g, s')
    /\ clean s'
    /\ In g (t_group (stored s'))
    /\ (forall r, In r (t_group (stored s')) <->
                  r = g \/ (In r (t_group (stored s)) /\ id r <> id self))
    /\ t_user (stored s') = t_user (stored s)
    /\ t_member (stored s') = t_member (stored s)
    /\ t_admin (stored s') = t_admin (stored s)
    /\ Group.get_by_name (name g) s' = (Return (Some g), s')
    /\ (name g <> name self ->
        Group.get_by_name (name self) s' = (Return None, s')).
Proof.
  intros Hcl Hc Hf Hin Hn g.
  destruct (Group_update_quiet self n d pp sp im s Hcl Hc Hf Hin Hn)
    as [Hrun Hc'].
  fold g in Hrun, Hc'.
  eexists. split; [exact Hrun|]. split; [reflexivity|].
  assert (Hg : In g (map (replace_group g) (t_group (stored s)))).
  { apply in_map_iff. exists self. split; [|assumption].
    unfold replace_group. change (id g) with (id self).
    now rewrite Nat.eqb_refl. }
  split; [exact Hg|]. split.
  { intros r. split.
    - intros Hr. simpl in Hr. now apply replaced_group_rows in Hr.
    - intros [->|[Hr Hid]]; [exact Hg|]. simpl.
      apply in_map_iff. exists r. split; [|assumption].
      unfold replace_group. change (id g) with (id self).
      apply Nat.eqb_neq in Hid. now rewrite Hid. }
  split; [reflexivity|]. split; [reflexivity|]. split; [reflexivity|].
  split.
  - apply get_by_name_found; [reflexivity | exact Hc' | exact Hg].
  - intros Hne. unfold Group.get_by_name, try_except, bind.
    rewrite one_quiet by reflexivity. unfold Group.filter_by_name.
    cbn [work t_group with_groups].
    rewrite filter_none; [reflexivity|].
    destruct (existsb _ _) eqn:E; [|reflexivity]. exfalso.
    apply existsb_exists in E. destruct E as [y [Hy Ey]].
    apply String.eqb_eq in Ey.
    apply replaced_group_rows in Hy. destruct Hy as [->|[Hy Hid]].
    + now apply Hne.
    + apply consistent_parts in Hc. destruct Hc as (_ & H2 & _).
      apply (distinct_NoDup String.eqb String.eqb_eq) in H2.
      apply Hid. change (id g) with (id self). f_equal.
      exact (NoDup_map_inj name _ y self H2 Hy Hin Ey).
Qed.

(** Run of X10: [readers] is renamed to "subscribers". *)
Lemma update_applies_and_renames_witness :
  exists g s',
    Group.update Ex.readers (Some "subscribers") None None None None
                 (Ex.idle Ex.empty_groups) = (Return g, s')
    /\ name g = "subscribers" /\ id g = 1
    /\ Group.get_by_name "subscribers" s' = (Return (Some g), s')
    /\ Group.get_by_name "readers" s' = (Return None, s').
Proof.
  destruct (update_applies_and_renames Ex.readers (Some "subscribers")
              None None None None (Ex.idle Ex.empty_groups)
              eq_refl eq_refl eq_refl (or_introl eq_refl))
    as [s' (H1 & _ & _ & _ & _ & _ & _ & H2 & H3)].
  - intros v E. inversion E; subst. now right.
  - eexists. exists s'. split; [exact H1|].
    split; [reflexivity|]. split; [reflexivity|].
    split; [exact H2 | apply H3; discriminate].
Defined.

(** X11. [update] never stores a policy code that does not validate: an
    invalid [privacy_policy] or [subscription_policy] argument has the
    effect of no argument, so a group whose policies are valid keeps
    valid policies, and its [id] never changes. *)
Theorem update_skips_invalid_policy (self : Group)
    (n d pp sp : option string) (im : option bool) (p : string)
    (s : session) :
  (PrivacyPolicy.validate p = false ->
   Group.update self n d (Some p) sp im s
   = Group.update self n d None sp im s)
  /\ (SubscriptionPolicy.validate p = false ->
      Group.update self n d pp (Some p) im s
      = Group.update self n d pp None im s)
  /\ (PrivacyPolicy.validate (privacy_policy self) = true ->
      SubscriptionPolicy.validate (subscription_policy self) = true ->
      forall g' s',
        Group.update self n d pp sp im s = (Return g', s') ->
        PrivacyPolicy.validate (privacy_policy g') = true
        /\ SubscriptionPolicy.validate (subscription_policy g') = true
        /\ id g' = id self).
Proof.
  split; [|split].
  - intros H. rewrite !update_object. unfold updated. now rewrite H.
  - intros H. rewrite !update_object. unfold updated. now rewrite H.
  - intros Hp Hs g' s' E. apply update_returns in E. subst g'.
    unfold updated; simpl. repeat split.
    + destruct pp as [v|]; [|assumption].
      destruct (PrivacyPolicy.validate v) eqn:Ev; assumption.
    + destruct sp as [v|]; [|assumption].
      destruct (SubscriptionPolicy.validate v) eqn:Ev; assumption.
Qed.

(** Run of X11: the code "X" is no privacy policy. *)
Lemma update_skips_invalid_policy_witness :
  let s := Ex.idle Ex.empty_groups in
  Group.update Ex.readers None None (Some "X") None None s
  = (Return Ex.readers, s)
  /\ PrivacyPolicy.validate (privacy_policy Ex.readers) = true.
Proof.
  intros s.
  destruct (update_skips_invalid_policy Ex.readers None None None None None
              "X" s) as (H1 & _ & H3).
  split.
  - rewrite (H1 eq_refl). reflexivity.
  - exact (proj1 (H3 eq_refl eq_refl Ex.readers s eq_refl)).
Defined.

(* ------------------------------------------------------------------ *)
(** ** Further properties: creating a group with its admin *)

Lemma triple_eqb_eq (a b : nat * string * nat) :
  triple_eqb a b = true <-> a = b.
Proof.
  destruct a as [[g1 t1] i1], b as [[g2 t2] i2]; simpl.
  rewrite !andb_true_iff, !Nat.eqb_eq, String.eqb_eq.
  split; [intros [[-> ->] ->]; reflexivity | intros H; inversion H; auto].
Qed.

Lemma has_group_below (t : tables) (x : nat) :
  has_group t x = true -> x < next_id (map id (t_group t)).
Proof.
  unfold has_group. intros H. apply existsb_exists in H.
  destruct H as [g [Hg E]]. apply Nat.eqb_eq in E. subst x.
  assert (H : list_max (map id (t_group t)) <= list_max (map id (t_group t)))
    by lia.
  rewrite list_max_le, Forall_forall in H.
  specialize (H (id g) (in_map id _ _ Hg)). unfold next_id. lia.
Qed.

Lemma consistent_add_admin (t : tables) (row : GroupAdmin) :
  consistent t = true ->
  has_group t (group_id row) = true ->
  ga_id row = next_id (map ga_id (t_admin t)) ->
  (forall a, In a (t_admin t) -> admin_key a <> admin_key row) ->
  consistent (with_admins t (t_admin t ++ [row])) = true.
Proof.
  intros Hc Hg Hid Hk. apply consistent_parts in Hc.
  destruct Hc as (H1 & H2 & H3 & H4 & H5 & H6 & H7).
  apply consistent_parts. simpl. repeat split; try assumption.
  - rewrite map_app; simpl. rewrite distinct_app_one, H5, Hid; simpl.
    now rewrite next_id_fresh.
  - rewrite map_app; simpl. rewrite distinct_app_one, H6; simpl.
    destruct (existsb _ (map admin_key (t_admin t))) eqn:E; [|reflexivity].
    apply existsb_exists in E. destruct E as [k [Hin E]].
    apply triple_eqb_eq in E. apply in_map_iff in Hin.
    destruct Hin as [a [Ea Ha]]. elim (Hk a Ha). congruence.
  - rewrite forallb_app; simpl. rewrite andb_true_r.
    apply andb_true_iff. split; [exact H7 | exact Hg].
Qed.

(** X12. A group created with an admin has that admin: on a store that
    accepts statements, [create(name=X, admins=[a])] with a free name
    and valid or omitted policies returns the new group, registers [a]
    as its only admin, so that [is_admin] answers [True] for [a], and
    sends [group_created] once. *)
Theorem create_registers_admin (X d : string) (pp sp : option string)
    (im : bool) (a : principal) (s : session) :
  X <> "" ->
  Group.valid_or_none PrivacyPolicy.validate pp = true ->
  Group.valid_or_none SubscriptionPolicy.validate sp = true ->
  clean s -> consistent (stored s) = true -> faults s = [] ->
  has_name (stored s) X = false ->
  exists g s1,
    Group.create (Some X) d pp sp im (Some [a]) s = (Return g, s1)
    /\ name g = X
    /\ clean s1
    /\ In g (t_group (stored s1))
    /\ Group.is_admin g a s1 = (Return true, s1)
    /\ admin_count (stored s1) (id g) = 1
    /\ signals s1 = signals s ++ [group_created g].
Proof.
  intros HX Hpp Hsp Hcl Hc Hf Hn.
  destruct s as [sto wk fl sg]; unfold clean in Hcl; simpl in *; subst.
  set (g := mkGroup (next_id (map id (t_group sto))) X d im
              (Group.or_default pp PrivacyPolicy.ADMINS)
              (Group.or_default sp SubscriptionPolicy.CLOSED)).
  set (t1 := with_groups sto (t_group sto ++ [g])).
  set (row := mkGroupAdmin (next_id (map ga_id (t_admin sto))) (id g)
                (resolve_admin_type a) (get_id a)).
  set (t2 := with_admins t1 (t_admin t1 ++ [row])).
  assert (Hc1 : consistent t1 = true)
    by exact (consistent_add_group sto g Hc eq_refl Hn).
  assert (Hfresh : forall r, In r (t_admin sto) -> group_id r <> id g).
  { intros r Hr E. apply consistent_parts in Hc.
    destruct Hc as (_ & _ & _ & _ & _ & _ & H7).
    rewrite forallb_forall in H7. specialize (H7 r Hr).
    apply has_group_below in H7. rewrite E in H7. simpl in H7. lia. }
  assert (Hc2 : consistent t2 = true).
  { apply (consistent_add_admin t1 row Hc1).
    - unfold has_group, t1; simpl. rewrite existsb_app; simpl.
      now rewrite Nat.eqb_refl, orb_true_r.
    - reflexivity.
    - intros r Hr E. apply (Hfresh r Hr).
      unfold admin_key in E. now inversion E. }
  assert (T : Group.truthy (Some X) = true).
  { simpl. apply negb_true_iff. now apply String.eqb_neq. }
  exists g, (mkSession t2 t2 [] (sg ++ [group_created g])).
  split.
  { unfold Group.create. rewrite T, Hpp, Hsp.
    unfold assert, try_except, add_group, add_group_admin, bind, ret,
      get_work, put_work; simpl.
    rewrite commit_quiet by reflexivity. cbn [work stored faults signals].
    match goal with |- context [consistent ?t] => change t with t2 end.
    rewrite Hc2. reflexivity. }
  split; [reflexivity|]. split; [reflexivity|]. split.
  { simpl. apply in_or_app. right. now left. }
  split; [|split; [|reflexivity]].
  - rewrite is_admin_quiet by (try reflexivity; exact Hc2).
    cbn [work]. f_equal. f_equal.
    unfold registered, t2; simpl. rewrite existsb_app; simpl.
    now rewrite !Nat.eqb_refl, String.eqb_refl, orb_true_r.
  - unfold admin_count, t2; simpl. rewrite filter_app; simpl.
    rewrite Nat.eqb_refl. rewrite filter_none; [reflexivity|].
    destruct (existsb _ (t_admin sto)) eqn:E; [|reflexivity].
    apply existsb_exists in E. destruct E as [r [Hr E]].
    apply Nat.eqb_eq in E. elim (Hfresh r Hr E).
Qed.

(** Run of X12: the signed-in user [alice] creates "authors", as the
    settings page does. *)
Lemma create_registers_admin_witness :
  exists g s1,
    Group.create (Some "authors") "" (Some PrivacyPolicy.MEMBERS)
                 (Some SubscriptionPolicy.OPEN) false
                 (Some [current_user 1]) (Ex.idle Ex.delegated)
    = (Return g, s1)
    /\ Group.is_admin g (UserObj Ex.alice) s1 = (Return true, s1).
Proof.
  destruct (create_registers_admin "authors" "" (Some PrivacyPolicy.MEMBERS)
              (Some SubscriptionPolicy.OPEN) false (current_user 1)
              (Ex.idle Ex.delegated))
    as [g [s1 (H1 & _ & _ & _ & H2 & _)]];
    try reflexivity; [discriminate|].
  exists g, s1. split; [exact H1 | exact H2].
Defined.

(* ------------------------------------------------------------------ *)
(** ** Further properties: the groups of a user *)

Lemma group_eqb_eq (a b : Group) : group_eqb a b = true <-> a = b.
Proof.
  destruct a as [i1 n1 d1 m1 p1 s1], b as [i2 n2 d2 m2 p2 s2].
  unfold group_eqb; simpl.
  rewrite !andb_true_iff, Nat.eqb_eq, !String.eqb_eq, Bool.eqb_true_iff.
  split.
  - intros [[[[[-> ->] ->] ->] ->] ->]. reflexivity.
  - intros H. inversion H. auto 10.
Qed.

Lemma in_join_rows {A} (p : Group -> A -> bool) (rows : list A)
    (groups : list Group) (g : Group) :
  In g (flat_map (fun g => map (fun _ => g) (filter (p g) rows)) groups)
  <-> In g groups /\ exists r, In r rows /\ p g r = true.
Proof.
  rewrite in_flat_map. split.
  - intros [g0 [Hg0 Hin]]. apply in_map_iff in Hin.
    destruct Hin as [r [E Hr]]. subst g0. apply filter_In in Hr.
    split; [assumption|]. exists r. exact Hr.
  - intros [Hg [r [Hr Hp]]]. exists g. split; [assumption|].
    apply in_map_iff. exists r. split; [reflexivity|].
    apply filter_In. auto.
Qed.

(** X13. [Group.query_by_user] selects the groups in which the user has
    a membership, ACTIVE unless [with_pending] is set, or of which the
    user is registered as an admin.  A group matched both ways is
    selected once: the result is a part of the group table. *)
Theorem query_by_user_exact (user : principal) (with_pending : bool)
    (t : tables) :
  (forall g,
     In g (Group.query_by_user user with_pending t)
     <-> In g (t_group t)
         /\ ((exists m, In m (t_member t)
                        /\ id_group m = id g
                        /\ id_user m = get_id user
                        /\ (with_pending = true
                            \/ state m = MembershipState.ACTIVE))
             \/ administers t (resolve_admin_type user) (get_id user)
                            (id g)))
  /\ (NoDup (t_group t) -> NoDup (Group.query_by_user user with_pending t))
  /\ (forall g, In g (Group.query_by_user user false t) ->
                In g (Group.query_by_user user true t)).
Proof.
  assert (Hiff : forall wp g,
     In g (Group.query_by_user user wp t)
     <-> In g (t_group t)
         /\ ((exists m, In m (t_member t)
                        /\ id_group m = id g
                        /\ id_user m = get_id user
                        /\ (wp = true
                            \/ state m = MembershipState.ACTIVE))
             \/ administers t (resolve_admin_type user) (get_id user)
                            (id g))).
  { intros wp g. unfold Group.query_by_user, union.
    rewrite filter_In, (existsb_eqb_In _ _ Nat.eqb_eq), in_map_iff.
    split.
    - intros [Hg [g0 [E Hin]]]. split; [assumption|].
      rewrite (dedup_In _ _ group_eqb_eq), in_app_iff in Hin.
      destruct Hin as [Hin|Hin]; apply in_join_rows in Hin;
        destruct Hin as [_ [r [Hr Hp]]]; rewrite !andb_true_iff in Hp;
        destruct Hp as [[H1 H2] H3];
        apply Nat.eqb_eq in H1; apply Nat.eqb_eq in H2.
      + left. exists r. rewrite <- E. repeat split; try assumption.
        apply orb_true_iff in H3. destruct H3 as [H3|H3];
          [now left | right; now apply String.eqb_eq].
      + right. exists r. apply String.eqb_eq in H3. rewrite <- E. auto.
    - intros [Hg H]. split; [assumption|]. exists g.
      split; [reflexivity|].
      rewrite (dedup_In _ _ group_eqb_eq), in_app_iff.
      destruct H as [[m (Hm & E1 & E2 & Hs)]|[ga (Ha & E1 & E2 & E3)]].
      + left. apply in_join_rows. split; [assumption|]. exists m.
        split; [assumption|]. rewrite !andb_true_iff, orb_true_iff,
          !Nat.eqb_eq, String.eqb_eq.
        tauto.
      + right. apply in_join_rows. split; [assumption|]. exists ga.
        split; [assumption|].
        rewrite !andb_true_iff, !Nat.eqb_eq, String.eqb_eq. auto. }
  split; [apply Hiff|]. split.
  - intros Hnd. unfold Group.query_by_user. now apply NoDup_filter.
  - intros g Hg. apply Hiff. apply Hiff in Hg.
    destruct Hg as [Hg [[m (Hm & E1 & E2 & Hs)]|Ha]]; split; auto.
    left. exists m. auto.
Qed.

(** Run of X13: [bob] only has a pending request on [readers], which
    lists the group for him when pending rows are asked for. *)
Lemma query_by_user_exact_witness :
  Group.query_by_user (UserObj Ex.bob) false Ex.delegated = []
  /\ In Ex.readers (Group.query_by_user (UserObj Ex.bob) true Ex.delegated)
  /\ NoDup (Group.query_by_user (UserObj Ex.alice) true Ex.delegated).
Proof.
  split; [reflexivity|]. split.
  - apply (proj1 (query_by_user_exact (UserObj Ex.bob) true Ex.delegated)).
    split; [simpl; auto|]. left.
    exists (mkMembership 2 1 MembershipState.PENDING_ADMIN).
    simpl. auto 10.
  - apply (proj1 (proj2 (query_by_user_exact (UserObj Ex.alice) true
                           Ex.delegated))).
    repeat constructor; simpl; intuition discriminate.
Defined.

(* ------------------------------------------------------------------ *)
(** ** Further properties: admins per group *)

Lemma in_grouped (sel : list (Group * GroupAdmin)) (gid n : nat) :
  In (gid, n)
     (map (fun x => (x, List.length
                          (filter (fun r => Nat.eqb (id (fst r)) x) sel)))
          (dedup Nat.eqb (map (fun r => id (fst r)) sel)))
  <-> In gid (map (fun r => id (fst r)) sel)
      /\ n = List.length (filter (fun r => Nat.eqb (id (fst r)) gid) sel).
Proof.
  rewrite in_map_iff. split.
  - intros [x [E Hx]]. inversion E; subst.
    rewrite (dedup_In _ _ Nat.eqb_eq) in Hx.
    split; [assumption | reflexivity].
  - intros [Hin ->]. exists gid. split; [reflexivity|].
    now apply (dedup_In _ _ Nat.eqb_eq).
Qed.

Lemma in_joined_ids (t : tables) (gid : nat) :
  In gid (map (fun r => id (fst r)) (GroupAdmin.joined_with_group t))
  <-> has_group t gid = true /\ 0 < admin_count t gid.
Proof.
  unfold GroupAdmin.joined_with_group, has_group, admin_count.
  rewrite in_map_iff, existsb_exists. split.
  - intros [[g a] [E Hin]]. simpl in E. subst gid.
    apply in_flat_map in Hin. destruct Hin as [g0 [Hg0 Hin]].
    apply in_map_iff in Hin. destruct Hin as [a0 [E Ha0]].
    inversion E; subst. split.
    + exists g. split; [assumption | apply Nat.eqb_refl].
    + destruct (filter _ (t_admin t)) as [|y l]; [elim Ha0 | simpl; lia].
  - intros [[g [Hg E]] Hn]. apply Nat.eqb_eq in E. subst gid.
    destruct (filter (fun a => Nat.eqb (group_id a) (id g)) (t_admin t))
      as [|a l] eqn:F; [simpl in Hn; lia|].
    exists (g, a). split; [reflexivity|].
    apply in_flat_map. exists g. split; [assumption|].
    apply in_map_iff. exists a. split; [reflexivity|].
    rewrite F. now left.
Qed.

Lemma filter_true {A} (l : list A) : filter (fun _ => true) l = l.
Proof. induction l as [|x l IH]; simpl; [reflexivity | now rewrite IH]. Qed.

Lemma joined_count (admins : list GroupAdmin) (groups : list Group)
    (gid : nat) :
  NoDup (map id groups) ->
  List.length
    (filter (fun r : Group * GroupAdmin => Nat.eqb (id (fst r)) gid)
       (flat_map (fun g => map (fun a => (g, a))
                               (filter (fun a => Nat.eqb (group_id a) (id g))
                                       admins))
                 groups))
  = if existsb (fun g => Nat.eqb (id g) gid) groups
    then List.length (filter (fun a => Nat.eqb (group_id a) gid) admins)
    else 0.
Proof.
  induction groups as [|x l IH]; simpl; [reflexivity|].
  rewrite NoDup_cons_iff. intros [Hx Hl].
  rewrite filter_app, length_app, (IH Hl).
  destruct (Nat.eqb (id x) gid) eqn:E; simpl.
  - apply Nat.eqb_eq in E. subst gid.
    assert (Hno : existsb (fun g => Nat.eqb (id g) (id x)) l = false).
    { destruct (existsb _ l) eqn:Ex; [|reflexivity].
      apply existsb_exists in Ex. destruct Ex as [g [Hg Eg]].
      apply Nat.eqb_eq in Eg. elim Hx. rewrite <- Eg. now apply in_map. }
    rewrite Hno, Nat.add_0_r.
    rewrite (filter_same _ (fun _ => true)).
    + rewrite filter_true. now rewrite length_map.
    + intros r Hr. apply in_map_iff in Hr. destruct Hr as [a [<- _]].
      simpl. apply Nat.eqb_refl.
  - rewrite filter_none; [reflexivity|].
    destruct (existsb _ (map _ _)) eqn:Ex; [|reflexivity].
    apply existsb_exists in Ex. destruct Ex as [r [Hr Er]].
    apply in_map_iff in Hr. destruct Hr as [a [<- _]]. simpl in Er.
    congruence.
Qed.

(** X14. [query_admins_by_group_ids] yields, for each group that has at
    least one admin, its id with the number of its [groupADMIN] rows; a
    group without admin does not appear.  A list of ids restricts the
    result to these groups, except that an empty list restricts nothing,
    like no list at all. *)
Theorem admins_per_group (t : tables) :
  GroupAdmin.query_admins_by_group_ids (Some []) t
  = GroupAdmin.query_admins_by_group_ids None t
  /\ (consistent t = true ->
      (forall gid n,
         In (gid, n) (GroupAdmin.query_admins_by_group_ids None t)
         <-> has_group t gid = true /\ n = admin_count t gid /\ 0 < n)
      /\ (forall i ids gid n,
            In (gid, n)
               (GroupAdmin.query_admins_by_group_ids (Some (i :: ids)) t)
            <-> In gid (i :: ids)
                /\ In (gid, n)
                      (GroupAdmin.query_admins_by_group_ids None t))).
Proof.
  split; [reflexivity|]. intros Hc.
  assert (Hnd : NoDup (map id (t_group t))).
  { apply consistent_parts in Hc.
    now apply (distinct_NoDup Nat.eqb Nat.eqb_eq). }
  assert (Hcount : forall gid,
            has_group t gid = true ->
            List.length (filter (fun r => Nat.eqb (id (fst r)) gid)
                                (GroupAdmin.joined_with_group t))
            = admin_count t gid).
  { intros gid Hg. unfold GroupAdmin.joined_with_group.
    rewrite (joined_count _ _ gid Hnd). unfold has_group in Hg.
    now rewrite Hg. }
  assert (Hall : forall gid n,
            In (gid, n) (GroupAdmin.query_admins_by_group_ids None t)
            <-> has_group t gid = true /\ n = admin_count t gid /\ 0 < n).
  { intros gid n. unfold GroupAdmin.query_admins_by_group_ids.
    rewrite in_grouped, in_joined_ids. split.
    - intros [[Hg Hn] ->]. rewrite (Hcount gid Hg). auto.
    - intros (Hg & -> & Hn). rewrite (Hcount gid Hg). auto. }
  split; [exact Hall|].
  intros i ids gid n. rewrite Hall.
  unfold GroupAdmin.query_admins_by_group_ids.
  set (inIds := fun r : Group * GroupAdmin =>
                  existsb (Nat.eqb (id (fst r))) (i :: ids)).
  rewrite in_grouped.
  assert (Hsel : In gid (map (fun r => id (fst r))
                             (filter inIds (GroupAdmin.joined_with_group t)))
                 <-> In gid (i :: ids)
                     /\ has_group t gid = true /\ 0 < admin_count t gid).
  { rewrite <- in_joined_ids, !in_map_iff. split.
    - intros [r [E Hr]]. apply filter_In in Hr. destruct Hr as [Hr Hi].
      unfold inIds in Hi. apply (existsb_eqb_In _ _ Nat.eqb_eq) in Hi.
      rewrite E in Hi. split; [assumption|]. now exists r.
    - intros [Hi [r [E Hr]]]. exists r. split; [assumption|].
      apply filter_In. split; [assumption|]. unfold inIds.
      apply (existsb_eqb_In _ _ Nat.eqb_eq). now rewrite E. }
  rewrite Hsel.
  assert (Hsame : In gid (i :: ids) ->
            filter (fun r => Nat.eqb (id (fst r)) gid)
                   (filter inIds (GroupAdmin.joined_with_group t))
            = filter (fun r => Nat.eqb (id (fst r)) gid)
                     (GroupAdmin.joined_with_group t)).
  { intros Hi. rewrite filter_filter. apply filter_same. intros r _.
    destruct (Nat.eqb (id (fst r)) gid) eqn:E;
      [|now rewrite andb_false_r].
    rewrite andb_true_r. unfold inIds.
    apply (existsb_eqb_In _ _ Nat.eqb_eq).
    apply Nat.eqb_eq in E. now rewrite E. }
  split.
  - intros [(Hi & Hg & Hn) ->]. rewrite (Hsame Hi), (Hcount gid Hg). auto.
  - intros (Hi & Hg & -> & Hn). rewrite (Hsame Hi), (Hcount gid Hg). auto.
Qed.

(** Run of X14: in the example only [readers] has an admin. *)
Lemma admins_per_group_witness :
  In (1, 1) (GroupAdmin.query_admins_by_group_ids None Ex.delegated)
  /\ ~ In (2, 0) (GroupAdmin.query_admins_by_group_ids None Ex.delegated)
  /\ ~ In (1, 1)
       (GroupAdmin.query_admins_by_group_ids (Some [2; 3]) Ex.delegated).
Proof.
  destruct (proj2 (admins_per_group Ex.delegated) eq_refl) as [H1 H2].
  split; [|split].
  - apply H1. repeat split. simpl. lia.
  - intros H. apply H1 in H. destruct H as (_ & _ & H). lia.
  - intros H. apply H2 in H. destruct H as [[H|[H|[]]] _]; discriminate.
Defined.

(* ------------------------------------------------------------------ *)
(** ** Further properties: listings of members, requests, invitations *)

(** X15. [query_by_group] with [with_invitations] set lists the rows of
    the group that are PENDING_USER or ACTIVE, whatever [state] keyword
    is passed and whether the group or its id is handed in; a request
    that awaits approval is never listed, and every row of the default,
    ACTIVE only, listing is. *)
Theorem members_listing (g : Group) (state_kw : option string)
    (t : tables) :
  (forall m,
     In m (Membership.query_by_group (inl g) true state_kw t)
     <-> In m (t_member t)
         /\ id_group m = id g
         /\ (state m = MembershipState.PENDING_USER
             \/ state m = MembershipState.ACTIVE))
  /\ Membership.query_by_group (inr (id g)) true state_kw t
     = Membership.query_by_group (inl g) true None t
  /\ (forall m, In m (Membership.query_by_group (inl g) true state_kw t) ->
                state m <> MembershipState.PENDING_ADMIN)
  /\ (forall m, In m (Membership.query_by_group (inl g) false None t) ->
                In m (Membership.query_by_group (inl g) true state_kw t)).
Proof.
  assert (Hiff : forall m,
     In m (Membership.query_by_group (inl g) true state_kw t)
     <-> In m (t_member t)
         /\ id_group m = id g
         /\ (state m = MembershipState.PENDING_USER
             \/ state m = MembershipState.ACTIVE)).
  { intros m. unfold Membership.query_by_group; simpl.
    rewrite filter_In, andb_true_iff, orb_true_iff, Nat.eqb_eq,
      !String.eqb_eq.
    tauto. }
  split; [exact Hiff|]. split; [reflexivity|]. split.
  - intros m Hm. apply Hiff in Hm. destruct Hm as (_ & _ & [E|E]);
      rewrite E; discriminate.
  - intros m Hm. apply Hiff.
    unfold Membership.query_by_group, Membership._filter in Hm;
      simpl in Hm.
    apply filter_In in Hm. destruct Hm as [Hm Hs].
    apply filter_In in Hm. destruct Hm as [Hm Hg].
    apply Nat.eqb_eq in Hg. apply String.eqb_eq in Hs. auto.
Qed.

(** Run of X15: the members page of [editors] shows [alice]; the one of
    [readers] does not show [bob]'s request. *)
Lemma members_listing_witness :
  In (mkMembership 1 2 MembershipState.ACTIVE)
     (Membership.query_by_group (inr 2) true None Ex.delegated)
  /\ ~ In (mkMembership 2 1 MembershipState.PENDING_ADMIN)
         (Membership.query_by_group (inl Ex.readers) true None Ex.delegated).
Proof.
  destruct (members_listing Ex.editors None Ex.delegated)
    as (_ & H2 & _ & H4).
  destruct (members_listing Ex.readers None Ex.delegated)
    as (_ & _ & H3 & _).
  split.
  - change (inr 2 : Group + nat) with (inr (id Ex.editors) : Group + nat).
    rewrite H2. apply H4. simpl. auto.
  - intros H. exact (H3 _ H eq_refl).
Defined.

Lemma in_query_requests (admin : principal) (t : tables) (m : Membership) :
  In m (Membership.query_requests admin t)
  <-> In m (t_member t)
      /\ state m = MembershipState.PENDING_ADMIN
      /\ (administers t (resolve_admin_type admin) (get_id admin)
                      (id_group m)
          \/ exists g2, active_member t (get_id admin) g2
                        /\ administers t "Group" g2 (id_group m)).
Proof.
  unfold Membership.query_requests, union.
  rewrite (dedup_In _ _ membership_eqb_eq), in_app_iff, !filter_In,
    !andb_true_iff, !String.eqb_eq, in_query_by_admin,
    in_delegated_groups.
  tauto.
Qed.

(** X16. A request made through [subscribe] on a group that asks for
    approval reaches the admins of the group: it is among the
    [query_requests] of a registered admin and not among the
    invitations of the user; once accepted it is no request any more. *)
Theorem request_reaches_admin (self : Group) (user admin : principal)
    (s : session) :
  clean s -> consistent (stored s) = true -> faults s = [] ->
  has_user (stored s) (get_id user) = true ->
  has_group (stored s) (id self) = true ->
  has_membership (stored s) (get_id user) (id self) = false ->
  subscription_policy self = SubscriptionPolicy.APPROVAL ->
  administers (stored s) (resolve_admin_type admin) (get_id admin)
              (id self) ->
  let m := mkMembership (get_id user) (id self)
                        MembershipState.PENDING_ADMIN in
  exists s1 s2,
    Group.subscribe self user s = (Return (Some m), s1)
    /\ clean s1
    /\ In m (Membership.query_requests admin (stored s1))
    /\ ~ In m (Membership.query_invitations user (stored s1))
    /\ Membership.accept m s1 = (Return (activated m), s2)
    /\ (forall r, In r (Membership.query_requests admin (stored s2)) ->
                  member_key r <> member_key m).
Proof.
  intros Hcl Hc Hf Hu Hg Hn Hp Ha m.
  assert (Hc1 : consistent (inserted (stored s) m) = true)
    by exact (consistent_add_membership (stored s) m Hc Hu Hg Hn).
  eexists. eexists. split.
  { unfold Group.subscribe, Group.add_member, bind. rewrite Hp; simpl.
    rewrite (Membership_create_fresh self user
               MembershipState.PENDING_ADMIN s Hcl Hc Hf Hu Hg Hn).
    reflexivity. }
  split; [reflexivity|]. split; [|split; [|split]].
  - apply in_query_requests. simpl. split.
    + apply in_or_app. right. now left.
    + split; [reflexivity|]. left. exact Ha.
  - unfold Membership.query_invitations, Membership.query_by_user,
      Membership._filter.
    rewrite filter_In. intros [_ H]. discriminate.
  - apply accept_quiet; [reflexivity | exact Hc1].
  - intros r Hr Hk. apply in_query_requests in Hr.
    destruct Hr as (Hin & Hst & _). cbn [stored t_member with_members] in Hin.
    assert (E : r = activated m)
      by exact (replaced_rows_state _ _ _ Hin Hk).
    subst r. discriminate.
Qed.

(** Run of X16: [bob] asks to join [editors], of which [alice] has been
    made an admin. *)
Lemma request_reaches_admin_witness :
  let t := mkTables [Ex.alice; Ex.bob] [Ex.readers; Ex.editors; Ex.board] []
             [mkGroupAdmin 1 2 "User" 1] in
  exists s1,
    Group.subscribe Ex.editors (UserObj Ex.bob) (Ex.idle t)
    = (Return (Some (mkMembership 2 2 MembershipState.PENDING_ADMIN)), s1)
    /\ In (mkMembership 2 2 MembershipState.PENDING_ADMIN)
          (Membership.query_requests (current_user 1) (stored s1)).
Proof.
  intros t.
  destruct (request_reaches_admin Ex.editors (UserObj Ex.bob)
              (current_user 1) (Ex.idle t)
              eq_refl eq_refl eq_refl eq_refl eq_refl eq_refl eq_refl)
    as [s1 [s2 (H1 & _ & H2 & _)]].
  - exists (mkGroupAdmin 1 2 "User" 1). simpl. auto.
  - exists s1. split; [exact H1 | exact H2].
Defined.

(** X17. An invitation shows among the invitations of the invited user
    and among the requests of nobody: [query_requests] only ever yields
    rows that await an admin. *)
Theorem invitation_reaches_user (self : Group) (user : principal)
    (s : session) :
  clean s -> consistent (stored s) = true -> faults s = [] ->
  has_user (stored s) (get_id user) = true ->
  has_group (stored s) (id self) = true ->
  has_membership (stored s) (get_id user) (id self) = false ->
  let m := mkMembership (get_id user) (id self)
                        MembershipState.PENDING_USER in
  exists s1,
    Group.invite self user None s = (Return (Some m), s1)
    /\ In m (Membership.query_invitations user (stored s1))
    /\ (forall admin, ~ In m (Membership.query_requests admin (stored s1)))
    /\ (forall r, In r (Membership.query_invitations user (stored s1)) ->
                  id_user r = get_id user
                  /\ state r = MembershipState.PENDING_USER).
Proof.
  intros Hcl Hc Hf Hu Hg Hn m.
  eexists. split.
  { unfold Group.invite, Group.add_member, bind; simpl.
    rewrite (Membership_create_fresh self user MembershipState.PENDING_USER
               s Hcl Hc Hf Hu Hg Hn).
    reflexivity. }
  split; [|split].
  - unfold Membership.query_invitations, Membership.query_by_user,
      Membership._filter.
    apply filter_In. split; [|reflexivity].
    apply filter_In. split; [|simpl; apply Nat.eqb_refl].
    simpl. apply in_or_app. right. now left.
  - intros admin H. apply in_query_requests in H.
    destruct H as (_ & H & _). discriminate.
  - intros r Hr.
    unfold Membership.query_invitations, Membership.query_by_user,
      Membership._filter in Hr.
    apply filter_In in Hr. destruct Hr as [Hr Hs].
    apply filter_In in Hr. destruct Hr as [_ Hi].
    apply Nat.eqb_eq in Hi. apply String.eqb_eq in Hs. auto.
Qed.

(** Run of X17: [bob] is invited to [board]. *)
Lemma invitation_reaches_user_witness :
  exists s1,
    Group.invite Ex.board (UserObj Ex.bob) None (Ex.idle Ex.administered)
    = (Return (Some (mkMembership 2 3 MembershipState.PENDING_USER)), s1)
    /\ Membership.query_invitations (UserObj Ex.bob) (stored s1)
       = [mkMembership 2 3 MembershipState.PENDING_USER].
Proof.
  destruct (invitation_reaches_user Ex.board (UserObj Ex.bob)
              (Ex.idle Ex.administered)
              eq_refl eq_refl eq_refl eq_refl eq_refl eq_refl)
    as [s1 (H1 & _)].
  exists s1. split; [exact H1|].
  assert (E : s1 = snd (Group.invite Ex.board (UserObj Ex.bob) None
                          (Ex.idle Ex.administered)))
    by now rewrite H1.
  subst s1. reflexivity.
Defined.

(* ------------------------------------------------------------------ *)
(** ** Further properties: the objects that stand for a user *)

(** X18. [resolve_admin_type] makes the login proxy, a [UserInfo] and
    the [User] row of one user the same admin and the same member: the
    lookups and the listings answer alike for the three.  The type
    name keeps a group apart from the user that has the same id. *)
Theorem user_objects_interchangeable (u : User) (p q : principal) :
  stands_for u p -> stands_for u q ->
  resolve_admin_type p = "User"
  /\ (forall g, resolve_admin_type (GroupObj g) <> resolve_admin_type p)
  /\ (forall self s, Group.is_admin self p s = Group.is_admin self q s)
  /\ (forall self wp s,
        Group.is_member self p wp s = Group.is_member self q wp s)
  /\ (forall self s,
        Group.can_see_members self p s = Group.can_see_members self q s)
  /\ (forall t, Membership.query_requests p t
                = Membership.query_requests q t)
  /\ (forall wp t, Group.query_by_user p wp t = Group.query_by_user q wp t).
Proof.
  intros [-> | [-> | ->]] [-> | [-> | ->]];
    (split; [reflexivity|]); (split; [intros g; discriminate|]);
    repeat split; reflexivity.
Qed.

(** Run of X18: [alice] as the signed-in user and as a row. *)
Lemma user_objects_interchangeable_witness :
  Group.is_admin Ex.board (current_user 1) (Ex.idle Ex.administered)
  = Group.is_admin Ex.board (UserObj Ex.alice) (Ex.idle Ex.administered)
  /\ fst (Group.is_admin Ex.board (GroupObj Ex.readers)
            (Ex.idle Ex.administered)) = Return false.
Proof.
  split; [|reflexivity].
  apply (user_objects_interchangeable Ex.alice (current_user 1)
           (UserObj Ex.alice)).
  - now left.
  - right. now right.
Defined.

(* ------------------------------------------------------------------ *)
(** ** Further properties: refused calls, signals, a failing store *)

(** X19. [create] checks its arguments before it touches the session: a
    missing or empty name, or a policy code that does not validate,
    raises [AssertionError] and leaves the session as it was. *)
Theorem create_asserts_arguments (n : option string) (d : string)
    (pp sp : option string) (im : bool) (admins : option (list principal))
    (s : session) :
  Group.truthy n = false
  \/ Group.valid_or_none PrivacyPolicy.validate pp = false
  \/ Group.valid_or_none SubscriptionPolicy.validate sp = false ->
  Group.create n d pp sp im admins s = (Raise AssertionError, s).
Proof.
  intros H. unfold Group.create, assert.
  destruct (Group.truthy n); [|reflexivity].
  destruct (Group.valid_or_none PrivacyPolicy.validate pp);
    [|reflexivity].
  destruct (Group.valid_or_none SubscriptionPolicy.validate sp);
    [|reflexivity].
  destruct H as [H|[H|H]]; discriminate.
Qed.

(** Run of X19: no name, an empty name, a policy code "X". *)
Lemma create_asserts_arguments_witness :
  let s := Ex.idle Ex.empty_groups in
  Group.create None "" None None false None s = (Raise AssertionError, s)
  /\ Group.create (Some "") "" None None false None s
     = (Raise AssertionError, s)
  /\ Group.create (Some "authors") "" (Some "X") None false None s
     = (Raise AssertionError, s).
Proof.
  intros s. split; [|split].
  - apply create_asserts_arguments. now left.
  - apply create_asserts_arguments. now left.
  - apply create_asserts_arguments. right. now left.
Defined.

Lemma commit_send_sends (sg : signal) (Q : tables -> Prop)
    (ok : unit -> Prop) (s : session) :
  Q (work s) -> ok tt ->
  sends_after_commit sg Q ok s ((commit ;;; send sg) s).
Proof.
  intros HQ Hok. unfold sends_after_commit, bind. rewrite commit_run.
  destruct (faults s) as [|[e|] fl]; simpl;
    try (left; split; [reflexivity | eexists; reflexivity]);
    (destruct (consistent (work s)); simpl;
     [|left; split; [reflexivity | eexists; reflexivity]]);
    unfold send; simpl.
  - right. auto.
  - right. destruct fl as [|[e|] fl']; simpl; auto.
Qed.

Lemma commit_send_ret_sends {A} (sg : signal) (Q : tables -> Prop)
    (ok : A -> Prop) (a : A) (s : session) :
  Q (work s) -> ok a ->
  sends_after_commit sg Q ok s ((commit ;;; send sg ;;; ret a) s).
Proof.
  intros HQ Hok. unfold sends_after_commit, bind. rewrite commit_run.
  destruct (faults s) as [|[e|] fl]; simpl;
    try (left; split; [reflexivity | eexists; reflexivity]);
    (destruct (consistent (work s)); simpl;
     [|left; split; [reflexivity | eexists; reflexivity]]);
    unfold send; simpl.
  - right. auto.
  - right. destruct fl as [|[e|] fl']; simpl; auto.
Qed.

Lemma pending_then_sends {A B} (sg : signal) (Q : tables -> Prop)
    (ok : B -> Prop) (m : M A) (k : A -> M B)
    (P : tables -> Prop) (P' : A -> tables -> Prop) :
  pending_only m ->
  (forall s a s1, m s = (Return a, s1) -> P (work s) -> P' a (work s1)) ->
  (forall a s1, P' a (work s1) -> sends_after_commit sg Q ok s1 (k a s1)) ->
  forall s, P (work s) -> sends_after_commit sg Q ok s (bind m k s).
Proof.
  intros Hm Hpost Hk s HP. unfold bind. destruct (Hm s) as (_ & H2 & _).
  destruct (m s) as [[a|e] s1] eqn:Em; simpl in *.
  - specialize (Hk a s1 (Hpost s a s1 Em HP)).
    unfold sends_after_commit in *. now rewrite <- H2.
  - left. split; [assumption | eexists; reflexivity].
Qed.

Lemma try_rollback_sends {A} (sg : signal) (Q : tables -> Prop)
    (ok : A -> Prop) (body : M A) (classes : exn -> bool) (s : session) :
  sends_after_commit sg Q ok s (body s) ->
  sends_after_commit sg Q ok s
    (try_except body classes (fun e => rollback ;;; raise e) s).
Proof.
  unfold sends_after_commit, try_except.
  destruct (body s) as [[a|e] s1]; simpl; [auto|].
  destruct (classes e); simpl; [|auto].
  intros [[H1 H2]|(H1 & H2 & H3 & _)].
  - left. split; [assumption | eexists; reflexivity].
  - right. auto.
Qed.

(** The steps of [create] and [delete] before the commit, on the group
    table the transaction sees. *)
Lemma add_group_admins_groups (l : list principal) (gid : nat)
    (s : session) (a : unit) (s1 : session) :
  for_each l
    (fun x => add_group_admin (fun i =>
                mkGroupAdmin i gid (resolve_admin_type x) (get_id x))) s
  = (Return a, s1) ->
  t_group (work s1) = t_group (work s).
Proof.
  revert s. induction l as [|x l IH]; intros s E; simpl in E.
  - inversion E. reflexivity.
  - unfold bind at 1 in E. unfold add_group_admin at 1 in E.
    unfold bind, get_work, put_work in E. apply IH in E.
    exact E.
Qed.

Lemma delete_memberships_groups (q : Query Membership) (s : session)
    (a : unit) (s1 : session) :
  delete_memberships q s = (Return a, s1) ->
  t_group (work s1) = t_group (work s).
Proof.
  unfold delete_memberships, bind. rewrite statement_run.
  unfold get_work, put_work.
  destruct (faults s) as [|[e|] fl]; simpl; intros E; inversion E;
    reflexivity.
Qed.

Lemma delete_group_admins_groups (q : Query GroupAdmin) (s : session)
    (a : unit) (s1 : session) :
  delete_group_admins q s = (Return a, s1) ->
  t_group (work s1) = t_group (work s).
Proof.
  unfold delete_group_admins, bind. rewrite statement_run.
  unfold get_work, put_work.
  destruct (faults s) as [|[e|] fl]; simpl; intros E; inversion E;
    reflexivity.
Qed.

Lemma has_group_same_groups (t t' : tables) (x : nat) :
  t_group t' = t_group t -> has_group t' x = has_group t x.
Proof. unfold has_group. now intros ->. Qed.

Lemma delete_group_gone (g : Group) (s : session) (a : unit)
    (s1 : session) :
  delete_group g s = (Return a, s1) ->
  has_group (work s) (id g) = true /\ has_group (work s1) (id g) = false.
Proof.
  rewrite delete_group_run.
  destruct (has_group (work s) (id g)) eqn:H; [|discriminate].
  intros E. inversion E. split; [reflexivity|].
  unfold has_group; simpl. rewrite existsb_filter.
  destruct (existsb _ (t_group (work s))) eqn:Ex; [|reflexivity].
  apply existsb_exists in Ex. destruct Ex as [r [_ Hr]].
  destruct (Nat.eqb (id r) (id g)); discriminate.
Qed.

(** X20. [group_created] and [group_deleted] are sent once and only
    after the commit.  Either the call raises and no signal has been
    sent; or exactly one signal has been sent, nothing is pending and
    the change is committed: the group of [group_created], which is the
    group returned when the call returns, is stored and was not before,
    and the group of [group_deleted] was stored and is not any more.  A
    call that returns has sent its signal. *)
Theorem signals_follow_commit (s : session) :
  clean s ->
  (forall n d pp sp im admins,
     let r := Group.create n d pp sp im admins s in
     (signals (snd r) = signals s /\ exists e, fst r = Raise e)
     \/ (exists g,
           signals (snd r) = signals s ++ [group_created g]
           /\ stored (snd r) = work (snd r)
           /\ In g (t_group (stored (snd r)))
           /\ ~ In g (t_group (stored s))
           /\ forall g', fst r = Return g' -> g' = g))
  /\ (forall self,
        let r := Group.delete self s in
        (signals (snd r) = signals s /\ exists e, fst r = Raise e)
        \/ (signals (snd r) = signals s ++ [group_deleted self]
            /\ stored (snd r) = work (snd r)
            /\ has_group (stored s) (id self) = true
            /\ has_group (stored (snd r)) (id self) = false)).
Proof.
  intros Hcl. split.
  - intros n d pp sp im admins. cbv zeta.
    unfold Group.create, assert.
    destruct (Group.truthy n);
      [|left; split; [reflexivity | eexists; reflexivity]].
    destruct (Group.valid_or_none PrivacyPolicy.validate pp);
      [|left; split; [reflexivity | eexists; reflexivity]].
    destruct (Group.valid_or_none SubscriptionPolicy.validate sp);
      [|left; split; [reflexivity | eexists; reflexivity]].
    match goal with
    | |- context [(ret tt ;;; ret tt ;;; ret tt ;;; ?T) s] =>
        change ((ret tt ;;; ret tt ;;; ret tt ;;; T) s) with (T s)
    end.
    set (mk := fun i => mkGroup i (Group.or_default n "") d im
                 (Group.or_default pp PrivacyPolicy.ADMINS)
                 (Group.or_default sp SubscriptionPolicy.CLOSED)).
    set (obj := mk (next_id (map id (t_group (work s))))).
    match goal with |- context [try_except ?body ?cl ?h s] =>
      assert (Hs : sends_after_commit (group_created obj)
                     (fun t => In obj (t_group t)) (fun g' => g' = obj) s
                     (try_except body cl h s));
      [|set (r := try_except body cl h s) in *]
    end.
    { apply try_rollback_sends.
      apply (pending_then_sends _ _ _ (add_group mk) _
               (fun t => t = work s)
               (fun a t => a = obj /\ In obj (t_group t)));
        [apply add_group_pending | | | reflexivity].
      - intros s0 a s1 E HP.
        unfold add_group, bind, get_work, put_work, ret in E.
        inversion E; subst. rewrite HP. fold obj. split; [reflexivity|].
        simpl. apply in_or_app. right. now left.
      - intros a s1 [-> Hin].
        apply (pending_then_sends _ _ _ _ _
                 (fun t => In obj (t_group t))
                 (fun _ t => In obj (t_group t))).
        + apply for_each_pending. intros x. apply add_group_admin_pending.
        + intros s0 a s2 E HP.
          now rewrite (add_group_admins_groups _ _ _ _ _ E).
        + intros _ s2 Hin2. now apply commit_send_ret_sends.
        + exact Hin. }
    destruct Hs as [Hs|(H1 & H2 & H3 & H4)]; [now left|].
    right. exists obj. repeat split; try assumption.
    + intros Hin. rewrite <- Hcl in Hin.
      assert (Hb := has_group_below (work s) (id obj)
                      (has_group_In _ _ Hin)).
      unfold obj, mk in Hb. simpl in Hb. lia.
    + intros g' E. now rewrite E in H4.
  - intros self. cbv zeta.
    destruct (has_group (work s) (id self)) eqn:Hg.
    + assert (Hs : sends_after_commit (group_deleted self)
                     (fun t => has_group t (id self) = false)
                     (fun _ => True) s (Group.delete self s)).
      { unfold Group.delete. apply try_rollback_sends.
        apply (pending_then_sends _ _ _ _ _ (fun _ => True)
                 (fun _ _ => True));
          [apply delete_memberships_pending | auto | | exact I].
        intros _ s1 _.
        apply (pending_then_sends _ _ _ _ _ (fun _ => True)
                 (fun _ _ => True));
          [apply delete_group_admins_pending | auto | | exact I].
        intros _ s2 _.
        apply (pending_then_sends _ _ _ _ _ (fun _ => True)
                 (fun _ _ => True));
          [apply delete_group_admins_pending | auto | | exact I].
        intros _ s3 _.
        apply (pending_then_sends _ _ _ _ _ (fun _ => True)
                 (fun _ t => has_group t (id self) = false));
          [apply delete_group_pending | | | exact I].
        - intros s0 a s4 E _. exact (proj2 (delete_group_gone _ _ _ _ E)).
        - intros _ s4 H4. now apply commit_send_sends. }
      destruct Hs as [Hs|(H1 & H2 & H3 & _)]; [now left|].
      right. rewrite <- Hcl. auto.
    + assert (Hs : sends_after_commit (group_deleted self)
                     (fun _ => False) (fun _ => True) s
                     (Group.delete self s)).
      { unfold Group.delete. apply try_rollback_sends.
        apply (pending_then_sends _ _ _ _ _
                 (fun t => has_group t (id self) = false)
                 (fun _ t => has_group t (id self) = false));
          [apply delete_memberships_pending | | | exact Hg].
        { intros s0 a s1 E HP.
          now rewrite (has_group_same_groups _ _ _
                         (delete_memberships_groups _ _ _ _ E)). }
        intros _ s1 H1.
        apply (pending_then_sends _ _ _ _ _
                 (fun t => has_group t (id self) = false)
                 (fun _ t => has_group t (id self) = false));
          [apply delete_group_admins_pending | | | exact H1].
        { intros s0 a s2 E HP.
          now rewrite (has_group_same_groups _ _ _
                         (delete_group_admins_groups _ _ _ _ E)). }
        intros _ s2 H2.
        apply (pending_then_sends _ _ _ _ _
                 (fun t => has_group t (id self) = false)
                 (fun _ t => has_group t (id self) = false));
          [apply delete_group_admins_pending | | | exact H2].
        { intros s0 a s3 E HP.
          now rewrite (has_group_same_groups _ _ _
                         (delete_group_admins_groups _ _ _ _ E)). }
        intros _ s3 H3.
        apply (pending_then_sends _ _ _ _ _
                 (fun t => has_group t (id self) = false)
                 (fun _ _ => False));
          [apply delete_group_pending | | | exact H3].
        - intros s0 a s4 E HP.
          destruct (delete_group_gone _ _ _ _ E) as [T _]. congruence.
        - intros _ s4 []. }
      destruct Hs as [Hs|(_ & _ & [] & _)]. now left.
Qed.

(** Run of X20: creating "authors" in an empty store sends one signal,
    for a group that is then stored. *)
Lemma signals_follow_commit_witness :
  let s := Ex.idle Ex.empty_groups in
  let r := Group.create (Some "authors") "" None None false None s in
  clean s
  /\ exists g, signals (snd r) = [group_created g]
               /\ In g (t_group (stored (snd r))).
Proof.
  intros s r. split; [reflexivity|].
  pose proof (proj1 (signals_follow_commit s eq_refl)
                (Some "authors") "" None None false None) as H.
  cbv zeta in H. fold r in H.
  destruct H as [[H _]|[g (H1 & _ & H3 & _)]].
  - vm_compute in H. discriminate H.
  - exists g. split; assumption.
Defined.

(** X21. A failing store reads as "no": when the statement of the lookup
    fails, [is_admin] and [is_member] answer [False] instead of raising,
    so [invite] on behalf of an admin returns [None] without inviting,
    and [can_see_members] of a group visible to its admins answers
    [False], even for a registered admin. *)
Theorem failing_store_denies (self : Group) (user admin : principal)
    (with_pending : bool) (s : session) :
  fails s = true ->
  Group.is_admin self admin s = (Return false, after_statement s)
  /\ Group.is_member self user with_pending s
     = (Return false, after_statement s)
  /\ Group.invite self user (Some admin) s
     = (Return None, after_statement s)
  /\ (privacy_policy self = PrivacyPolicy.ADMINS ->
      Group.can_see_members self admin s
      = (Return (Some false), after_statement s)).
Proof.
  intros Hf.
  assert (Ha : Group.is_admin self admin s
               = (Return false, after_statement s)).
  { unfold Group.is_admin, bind, GroupAdmin.get.
    rewrite guarded_one, Hf. reflexivity. }
  split; [exact Ha|]. split; [|split].
  - unfold Group.is_member, bind, Membership.get.
    rewrite guarded_one, Hf. reflexivity.
  - unfold Group.invite, bind. rewrite Ha. reflexivity.
  - intros Hp. unfold Group.can_see_members, bind. rewrite Hp; simpl.
    rewrite Ha. reflexivity.
Qed.

(** Run of X21: [alice] administers [board], but the store is down. *)
Lemma failing_store_denies_witness :
  let down := mkSession Ex.administered Ex.administered
                        [Some OperationalError] [] in
  Group.is_admin Ex.board (UserObj Ex.alice) (Ex.idle Ex.administered)
  = (Return true, Ex.idle Ex.administered)
  /\ Group.invite Ex.board (UserObj Ex.bob) (Some (UserObj Ex.alice)) down
     = (Return None, Ex.idle Ex.administered).
Proof.
  intros down. split; [reflexivity|].
  exact (proj1 (proj2 (proj2 (failing_store_denies Ex.board
                                (UserObj Ex.bob) (UserObj Ex.alice) false
                                down eq_refl)))).
Defined.
